(** * Qwiery SQL adapter: the projection compiler

    A shallow embedding of the two renderers of the Qwiery SQL adapter:

    - [Projections.toSQL]   (src/projections.ts): renders a parsed
      Mongo-like projection (an operator tree) to a constraint string;
    - [Translator.toSequelize] (src/sequelize.ts): rewrites the raw
      Mongo-like projection into a Sequelize [where] descriptor;
    - [Utils] (src/utils.ts): the conversions between nodes and edges of
      the graph and the records of the two tables.

    JavaScript values are modelled by the inductive type [json]; thrown
    exceptions by the [result] type. *)

From Stdlib Require Import String Ascii List ZArith Lia Bool Arith.
From Stdlib Require Import DecimalString Decimal DecimalNat.
Import ListNotations.
Open Scope string_scope.

Set Implicit Arguments.
Local Set Warnings "-register-all".

(* ================================================================== *)
(** ** Exceptions *)

(** What a [throw] carries.  [Error msg] is [new Error(msg)]; [TypeError]
    is the engine's own error on reading a property of [undefined] or
    [null], or on iterating / enumerating such a value. *)
Inductive exn : Type :=
| Error (message : string)
| TypeError.

Inductive result (A : Type) : Type :=
| Ok (a : A)
| Err (e : exn).

Arguments Ok {A} a.
Arguments Err {A} e.

Definition bind {A B : Type} (m : result A) (k : A -> result B) : result B :=
  match m with
  | Ok a => k a
  | Err e => Err e
  end.

Declare Scope result_scope.
Delimit Scope result_scope with result.
Notation "x <- m ;; k" := (bind m (fun x => k))
  (at level 61, m at next level, right associativity) : result_scope.
Notation "' p <- m ;; k" := (bind m (fun x => match x with p => k end))
  (at level 61, p pattern, m at next level, right associativity) : result_scope.
Open Scope result_scope.

(* ================================================================== *)
(** ** JavaScript values *)

(** The values a projection is made of.  A number is an integer, of
    absolute value below 10^21, where JavaScript prints the decimal
    digits; a string is the sequence of its code units; an object is the
    list of its own enumerable string-keyed properties in enumeration
    order, the keys pairwise distinct. *)
Inductive json : Type :=
| JUndefined
| JNull
| JBool (b : bool)
| JNum (n : Z)
| JStr (s : string)
| JArr (elems : list json)
| JObj (props : list (string * json)).

Definition isNumber (o : json) : bool :=
  match o with JNum _ => true | _ => false end.
Definition isBoolean (o : json) : bool :=
  match o with JBool _ => true | _ => false end.
Definition isArray (o : json) : bool :=
  match o with JArr _ => true | _ => false end.
Definition isPlainObject (o : json) : bool :=
  match o with JObj _ => true | _ => false end.

(** [Array.prototype.join] on an array of strings. *)
Fixpoint join (sep : string) (l : list string) : string :=
  match l with
  | [] => ""
  | [x] => x
  | x :: rest => x ++ sep ++ join sep rest
  end.

(** Number to string, for an integer: its decimal digits, with a minus sign
    when negative. *)
Definition string_of_Z (n : Z) : string := NilZero.string_of_int (Z.to_int n).
Definition string_of_nat (n : nat) : string := NilZero.string_of_uint (Nat.to_uint n).
Definition string_of_bool (b : bool) : string := if b then "true" else "false".

(** The string a template literal interpolates for a value ([ToString]).
    An array joins its elements with a comma, [null] and [undefined]
    elements giving the empty string.  A plain object gives
    [[object Object]] through the [toString] it inherits; an own
    property named [toString] hides that method and, no value of a
    projection being a function, the conversion throws a type error. *)
Fixpoint toString (o : json) : result string :=
  match o with
  | JUndefined => Ok "undefined"
  | JNull => Ok "null"
  | JBool b => Ok (string_of_bool b)
  | JNum n => Ok (string_of_Z n)
  | JStr s => Ok s
  | JArr l =>
      texts <- (fix elems (l : list json) : result (list string) :=
                  match l with
                  | [] => Ok []
                  | u :: l' =>
                      t <- match u with
                           | JUndefined | JNull => Ok ""
                           | _ => toString u
                           end ;;
                      ts <- elems l' ;;
                      Ok (t :: ts)
                  end) l ;;
      Ok (join "," texts)
  | JObj props =>
      if existsb (fun kv => fst kv =? "toString") props
      then Err TypeError
      else Ok "[object Object]"
  end.

(* ================================================================== *)
(** ** The string renderer (src/projections.ts) *)

Module Projections.

(** A node of the operator tree the projection parser returns:
    [{operator?, field?, operand?, parts?}].  [None] is an absent
    property. *)
Inductive node : Type :=
| Node (operator : option string) (field : option string)
       (operand : json) (parts : option (list node)).

(** The test [if (x)] on an optional string: absent and the empty string
    are falsy.  Returns the string when truthy. *)
Definition truthy (x : option string) : option string :=
  match x with
  | Some "" => None
  | Some s => Some s
  | None => None
  end.

Definition getSqlOperator (o : string) : result string :=
  if o =? "$eq" then Ok "="
  else if o =? "$lt" then Ok "<"
  else if o =? "$lte" then Ok "<="
  else if o =? "$gt" then Ok ">"
  else if o =? "$gte" then Ok ">="
  else if o =? "$in" then Ok "in"
  else if o =? "$and" then Ok "and"
  else if o =? "$or" then Ok "or"
  else Err (Error ("Unrecognized operator '" ++ o ++ "'.")).

(** [getOperand] falls off its last [else if] for [null], [undefined] and
    objects and then returns [undefined], here [None]. *)
Fixpoint getOperand (o : json) : option string :=
  match o with
  | JStr s => Some ("'" ++ s ++ "'")
  | JNum n => Some (string_of_Z n)
  | JBool b => Some (string_of_bool b)
  | JArr l =>
      match l with
      | [] => Some "[]"
      | _ => Some (join ", "
                     (map (fun u => match getOperand u with
                                    | Some s => s
                                    | None => ""   (* join skips undefined *)
                                    end) l))
      end
  | _ => None
  end.

(** [`${x}`] for the result of [getOperand]. *)
Definition interpolate (x : option string) : string :=
  match x with
  | Some s => s
  | None => "undefined"
  end.

Fixpoint toSQL (q : node) (variable : string) (level : nat) {struct q}
  : result string :=
  match q with
  | Node q_operator q_field q_operand q_parts =>
      let s := "" in
      (* the statements after the [if (q.operator)] block *)
      let trailing (s : string) : result string :=
        match q_parts with
        | None => Err TypeError          (* q.parts.length of undefined *)
        | Some ps =>
            if (0 <? List.length ps)%nat then
              (fix loop (us : list node) (s : string) : result string :=
                 match us with
                 | [] => Ok s
                 | u :: us' =>
                     r <- toSQL u variable (level + 1) ;;
                     loop us' (s ++ r)
                 end) ps s
            else Ok s
        end in
      match truthy q_operator with
      | Some op =>
          match truthy q_field with
          | Some f =>
              s <- (if isArray q_operand then
                      if op =? "$all" then
                        Ok (s ++ "(" ++ interpolate (getOperand q_operand)
                              ++ " in " ++ variable ++ "." ++ f ++ ")")
                      else
                        sym <- getSqlOperator op ;;
                        Ok (s ++ "(" ++ variable ++ "." ++ f ++ " " ++ sym
                              ++ " (" ++ interpolate (getOperand q_operand) ++ "))")
                    else
                      if op =? "$size" then
                        Ok (s ++ "(length(" ++ variable ++ "." ++ f ++ ") = "
                              ++ interpolate (getOperand q_operand) ++ ")")
                      else if op =? "$startsWith" then
                        t <- toString q_operand ;;
                        Ok (s ++ "(" ++ variable ++ "." ++ f ++ " like '"
                              ++ t ++ "%')")
                      else if op =? "$contains" then
                        t <- toString q_operand ;;
                        Ok (s ++ "(" ++ variable ++ "." ++ f ++ " like '%"
                              ++ t ++ "%')")
                      else if op =? "$regex" then
                        t <- toString q_operand ;;
                        Ok (s ++ "(" ++ variable ++ "." ++ f ++ " regexp '"
                              ++ t ++ "')")
                      else
                        sym <- getSqlOperator op ;;
                        Ok (s ++ "(" ++ variable ++ "." ++ f ++ " " ++ sym ++ " "
                              ++ interpolate (getOperand q_operand) ++ ")")) ;;
              trailing s
          | None =>
              conjunctor <- getSqlOperator op ;;
              coll <- match q_parts with
                      | None => Err TypeError      (* undefined is not iterable *)
                      | Some ps =>
                          (fix loop (us : list node) (coll : list string)
                             : result (list string) :=
                             match us with
                             | [] => Ok coll
                             | part :: us' =>
                                 r <- toSQL part variable 0 ;;
                                 loop us' (coll ++ [r])%list
                             end) ps []
                      end ;;
              Ok (s ++ join (" " ++ conjunctor ++ " ") coll)
          end
      | None => trailing s
      end
  end.

(** The two loops of [toSQL] over [q.parts], as functions of their own:
    the trailing [s += toSQL(u, variable, level + 1)] and the container's
    [coll.push(toSQL(part, variable))]. *)
Definition append_parts (variable : string) (level : nat)
  : list node -> string -> result string :=
  fix loop (us : list node) (s : string) : result string :=
    match us with
    | [] => Ok s
    | u :: us' =>
        r <- toSQL u variable (level + 1) ;;
        loop us' (s ++ r)
    end.

Definition push_parts (variable : string)
  : list node -> list string -> result (list string) :=
  fix loop (us : list node) (coll : list string) : result (list string) :=
    match us with
    | [] => Ok coll
    | part :: us' =>
        r <- toSQL part variable 0 ;;
        loop us' (coll ++ [r])%list
    end.

(** *** The documented forms, in the words of the specification *)

(** The fixed symbol table of the comparison operators. *)
Definition comparison_symbols : list (string * string) :=
  [("$eq", "="); ("$lt", "<"); ("$lte", "<="); ("$gt", ">"); ("$gte", ">=")].

(** The keywords of the symbol table of [getSqlOperator]. *)
Definition symbol_table : list string :=
  ["$eq"; "$lt"; "$lte"; "$gt"; "$gte"; "$in"; "$and"; "$or"].

(** The keywords with a branch of their own for a scalar operand. *)
Definition scalar_branches : list string :=
  ["$size"; "$startsWith"; "$contains"; "$regex"].

(** Operand formatting of a scalar: a string single-quoted, a number or a
    boolean as a bare literal. *)
Definition literal_text (o : json) : option string :=
  match o with
  | JStr s => Some ("'" ++ s ++ "'")
  | JNum n => Some (string_of_Z n)
  | JBool b => Some (string_of_bool b)
  | _ => None
  end.

(** A scalar placed verbatim inside a quoted pattern. *)
Definition verbatim_text (o : json) : option string :=
  match o with
  | JStr s => Some s
  | JNum n => Some (string_of_Z n)
  | JBool b => Some (string_of_bool b)
  | _ => None
  end.

(** A sequence of formatted elements: [[]] when empty, else comma-joined. *)
Definition sequence_text (texts : list string) : string :=
  match texts with
  | [] => "[]"
  | _ => join ", " texts
  end.

(** A predicate leaf [{field, operator, operand, parts: []}], and the
    container without operator that stands at the top of a tree. *)
Definition predicate (f op : string) (o : json) : node :=
  Node (Some op) (Some f) o (Some []).
Definition root (ps : list node) : node :=
  Node None None JUndefined (Some ps).

(** Concatenation with no separator. *)
Definition concatenation (rs : list string) : string :=
  fold_right append "" rs.

(** [toSQL(q)] and [toSQL(q, variable)] with the default arguments. *)
Definition toSQL1 (q : node) : result string := toSQL q "n" 0.
Definition toSQL2 (q : node) (variable : string) : result string :=
  toSQL q variable 0.

End Projections.

(* ================================================================== *)
(** ** The Sequelize translator (src/sequelize.ts) *)

Module Translator.

(** The operator symbols of Sequelize the translator uses ([Op.eq], ...). *)
Inductive Op : Type :=
| Op_eq | Op_lt | Op_lte | Op_gt | Op_gte | Op_in | Op_and | Op_or
| Op_startsWith | Op_substring.

(** A property key of a rewritten object: a string or a symbol. *)
Inductive key : Type :=
| KStr (s : string)
| KSym (o : Op).

Definition Op_eqb (a b : Op) : bool :=
  match a, b with
  | Op_eq, Op_eq | Op_lt, Op_lt | Op_lte, Op_lte | Op_gt, Op_gt
  | Op_gte, Op_gte | Op_in, Op_in | Op_and, Op_and | Op_or, Op_or
  | Op_startsWith, Op_startsWith | Op_substring, Op_substring => true
  | _, _ => false
  end.

Definition key_eqb (a b : key) : bool :=
  match a, b with
  | KStr s, KStr t => (s =? t)%string
  | KSym o, KSym p => Op_eqb o p
  | _, _ => false
  end.

(** What the translator builds.  [SVal v] is a value of the projection
    used as it is; [SObj] an object in insertion order; [SWhere] the
    instance [Sequelize.where(Sequelize.fn(fn, Sequelize.col(col),
    Sequelize.literal(literal)), logic)]. *)
Inductive sq : Type :=
| SVal (v : json)
| SArr (elems : list sq)
| SObj (props : list (key * sq))
| SWhere (fn col literal : string) (logic : json).

Definition object : Type := list (key * sq).

(** [r[k] = v]: replaces the value of an existing property in place,
    appends a new one. *)
Fixpoint obj_set (r : object) (k : key) (v : sq) : object :=
  match r with
  | [] => [(k, v)]
  | (k', v') :: r' =>
      if key_eqb k' k then (k, v) :: r' else (k', v') :: obj_set r' k v
  end.

(** [_.keys(p)] and [Object.getOwnPropertySymbols(p)] of a rewritten
    object. *)
Fixpoint keys (p : object) : list string :=
  match p with
  | [] => []
  | (KStr s, _) :: p' => s :: keys p'
  | (KSym _, _) :: p' => keys p'
  end.

Fixpoint getOwnPropertySymbols (p : object) : list Op :=
  match p with
  | [] => []
  | (KStr _, _) :: p' => getOwnPropertySymbols p'
  | (KSym o, _) :: p' => o :: getOwnPropertySymbols p'
  end.

Definition getSequelizeOperator (operator : string) : result key :=
  if operator =? "$eq" then Ok (KSym Op_eq)
  else if operator =? "$lt" then Ok (KSym Op_lt)
  else if operator =? "$lte" then Ok (KSym Op_lte)
  else if operator =? "$gt" then Ok (KSym Op_gt)
  else if operator =? "$gte" then Ok (KSym Op_gte)
  else if operator =? "$in" then Ok (KSym Op_in)
  else if operator =? "$and" then Ok (KSym Op_and)
  else if operator =? "$or" then Ok (KSym Op_or)
  else if operator =? "$startsWith" then Ok (KSym Op_startsWith)
  else if operator =? "$contains" then Ok (KSym Op_substring)
  else if operator =? "$size" then
    Err (Error "Should have been handled separately already.")
  else if existsb (String.eqb operator) ["id"; "labels"] then Ok (KStr operator)
  else Ok (KStr ("data." ++ operator)).

(** The double quote character, and the literal [`"\$.${key}"`]. *)
Definition dquote : string := String (ascii_of_nat 34) EmptyString.
Definition json_path (key : string) : string := dquote ++ "$." ++ key ++ dquote.

(** The look-ahead loop over [_.keys(value)]: the value of the first
    property named [$size], if any. *)
Fixpoint lookahead (props : list (string * json)) : option json :=
  match props with
  | [] => None
  | (k, v) :: props' =>
      if existsb (String.eqb k) ["$size"] then Some v else lookahead props'
  end.

(** The state of the loop in [rewrite]: the object [r] being filled and
    the shared array [specialCases]. *)
Definition state : Type := (object * list sq)%type.

(** [value.map((u) => rewrite(u, specialCases))]. *)
Definition map_rewrite (rewrite : json -> list sq -> result state)
  : list json -> list sq -> result (list sq * list sq) :=
  fix go (us : list json) (specialCases : list sq) :=
    match us with
    | [] => Ok ([], specialCases)
    | u :: us' =>
        '(r, specialCases) <- rewrite u specialCases ;;
        '(rs, specialCases) <- go us' specialCases ;;
        Ok (SObj r :: rs, specialCases)
    end.

(** The body of the loop [for (const key of Object.keys(projector))], with
    [value = projector[key]]. *)
Definition rewrite_body (rewrite : json -> list sq -> result state)
  (key : string) (value : json) (st : state) : result state :=
  let '(r, specialCases) := st in
  newKey <- getSequelizeOperator key ;;
  match value with
  | JObj props =>
      match lookahead props with
      | Some logic =>
          Ok (r, (specialCases
                    ++ [SWhere "json_array_length" "data" (json_path key) logic])%list)
      | None =>
          '(r', specialCases) <- rewrite value specialCases ;;
          Ok (obj_set r newKey (SObj r'), specialCases)
      end
  | JArr us =>
      '(rs, specialCases) <- map_rewrite rewrite us specialCases ;;
      Ok (obj_set r newKey (SArr rs), specialCases)
  | _ => Ok (obj_set r newKey (SVal value), specialCases)
  end.

(** [Object.keys] of an object are its property names, of an array and of
    a string the indices, of a number and of a boolean none; of [null] and
    [undefined] it throws. *)
Fixpoint rewrite (projector : json) (specialCases : list sq) {struct projector}
  : result state :=
  match projector with
  | JObj props =>
      (fix loop (es : list (string * json)) (st : state) : result state :=
         match es with
         | [] => Ok st
         | (key, value) :: es' =>
             st <- rewrite_body rewrite key value st ;;
             loop es' st
         end) props ([], specialCases)
  | JArr elems =>
      (fix loop (i : nat) (us : list json) (st : state) : result state :=
         match us with
         | [] => Ok st
         | value :: us' =>
             st <- rewrite_body rewrite (string_of_nat i) value st ;;
             loop (S i) us' st
         end) 0%nat elems ([], specialCases)
  | JStr s =>
      (fix loop (i : nat) (cs : string) (st : state) : result state :=
         match cs with
         | EmptyString => Ok st
         | String c cs' =>
             (* a character is a string, neither a plain object nor an
                array: the body makes no recursive call on it *)
             st <- rewrite_body (fun _ _ => Err TypeError)
                     (string_of_nat i) (JStr (String c "")) st ;;
             loop (S i) cs' st
         end) 0%nat s ([], specialCases)
  | JNum _ | JBool _ => Ok ([], specialCases)
  | JNull | JUndefined => Err TypeError
  end.

(** [_.isNil(p)] is false for the object [rewrite] returns. *)
Definition toSequelize (projector : json) : result sq :=
  '(p, specialCases) <- rewrite projector [] ;;
  if (List.length specialCases =? 0)%nat then
    if ((List.length (keys p) =? 0)%nat
        && (List.length (getOwnPropertySymbols p) =? 0)%nat)%bool
    then Ok (SObj [])
    else Ok (SObj [(KStr "where", SObj p)])
  else
    if (List.length (keys p) =? 0)%nat
    then Ok (SObj [(KStr "where", SArr specialCases)])
    else Ok (SObj [(KStr "where", SArr (specialCases ++ [SObj p])%list)]).

(** The three loops of [rewrite], as functions of their own. *)
Definition rewrite_props : list (string * json) -> state -> result state :=
  fix loop (es : list (string * json)) (st : state) : result state :=
    match es with
    | [] => Ok st
    | (key, value) :: es' =>
        st <- rewrite_body rewrite key value st ;;
        loop es' st
    end.

Definition rewrite_elems : nat -> list json -> state -> result state :=
  fix loop (i : nat) (us : list json) (st : state) : result state :=
    match us with
    | [] => Ok st
    | value :: us' =>
        st <- rewrite_body rewrite (string_of_nat i) value st ;;
        loop (S i) us' st
    end.

Definition rewrite_chars : nat -> string -> state -> result state :=
  fix loop (i : nat) (cs : string) (st : state) : result state :=
    match cs with
    | EmptyString => Ok st
    | String c cs' =>
        st <- rewrite_body (fun _ _ => Err TypeError)
                (string_of_nat i) (JStr (String c "")) st ;;
        loop (S i) cs' st
    end.

(** *** The vocabulary, in the words of the specification *)

(** The keywords with a case of their own in [getSequelizeOperator]. *)
Definition switch_keywords : list string :=
  ["$eq"; "$lt"; "$lte"; "$gt"; "$gte"; "$in"; "$and"; "$or";
   "$startsWith"; "$contains"; "$size"].

(** The thirteen reserved filter-object keywords. *)
Definition reserved_keywords : list string :=
  ["$eq"; "$lt"; "$lte"; "$gt"; "$gte"; "$in"; "$and"; "$or"; "$all";
   "$size"; "$startsWith"; "$contains"; "$regex"].

(** The key of an attribute: [id] and [labels] pass through, any other
    name goes under the [data.] namespace. *)
Definition data_key (k : string) : string :=
  if (k =? "id") || (k =? "labels") then k else "data." ++ k.

(** A value that is neither a plain object nor an array. *)
Definition is_leaf (v : json) : bool :=
  negb (isPlainObject v || isArray v).

(** A filter made of attributes only: a leaf, or an object with distinct
    keys, none of them a keyword of the switch, over such filters. *)
Inductive attribute_tree : json -> Prop :=
| attribute_leaf (v : json) :
    is_leaf v = true -> attribute_tree v
| attribute_object (props : list (string * json)) :
    NoDup (map fst props) ->
    Forall (fun kv => ~ In (fst kv) switch_keywords
                      /\ attribute_tree (snd kv)) props ->
    attribute_tree (JObj props).

(** The same filter with every key renamed by [data_key], at every
    depth. *)
Fixpoint renamed (v : json) : sq :=
  match v with
  | JObj props =>
      SObj ((fix go (ps : list (string * json)) : object :=
               match ps with
               | [] => []
               | (k, u) :: ps' => (KStr (data_key k), renamed u) :: go ps'
               end) props)
  | _ => SVal v
  end.

Definition renamed_props : list (string * json) -> object :=
  fix go (ps : list (string * json)) : object :=
    match ps with
    | [] => []
    | (k, u) :: ps' => (KStr (data_key k), renamed u) :: go ps'
    end.

(** What [rewrite] makes of a filter of attributes: the renamed filter,
    and no standalone predicate. *)
Definition rewrites_to_renamed (v : json) : Prop :=
  attribute_tree v ->
  forall props, v = JObj props ->
  forall sc, rewrite v sc = Ok (renamed_props props, sc).

(** The descriptor [{ where: clause }]. *)
Definition where_ (clause : sq) : sq := SObj [(KStr "where", clause)].

(** The descriptor of a mapping when no standalone predicate was
    collected: [{}] for the empty mapping. *)
Definition descriptor (p : object) : sq :=
  match p with
  | [] => SObj []
  | _ => where_ (SObj p)
  end.

(** The object made of the characters of a string, the character at index
    [i] under the key [data.<i>], from index [i] on. *)
Fixpoint chars_object (i : nat) (cs : string) : object :=
  match cs with
  | EmptyString => []
  | String c cs' =>
      (KStr ("data." ++ string_of_nat i), SVal (JStr (String c "")))
        :: chars_object (S i) cs'
  end.

(** What [rewrite] makes of an array element that is a number, a boolean
    or a string. *)
Definition scalar_image (v : json) : option sq :=
  match v with
  | JNum _ | JBool _ => Some (SObj [])
  | JStr s => Some (SObj (chars_object 0 s))
  | _ => None
  end.

End Translator.


(* ================================================================== *)
(** ** Records and graph elements (the class [Utils], which the adapter
    imports from [./utils.js]) *)

Module Utils.

(** The test [if (x)] on a value. *)
Definition truthy (x : json) : bool :=
  match x with
  | JUndefined | JNull => false
  | JBool b => b
  | JNum n => negb (n =? 0)%Z
  | JStr s => negb (s =? "")
  | JArr _ | JObj _ => true
  end.

(** [x || y]. *)
Definition or_else (x y : json) : json := if truthy x then x else y.

Fixpoint lookup (k : string) (props : list (string * json)) : option json :=
  match props with
  | [] => None
  | (k', v) :: props' => if k' =? k then Some v else lookup k props'
  end.

(** [x.k], for the names read in this file ([id], [labels], [sourceId],
    [targetId], [data]), which no array, string, number or boolean has:
    [undefined] when absent, a type error on [null] and [undefined]. *)
Definition get (x : json) (k : string) : result json :=
  match x with
  | JObj props =>
      Ok match lookup k props with
         | Some v => v
         | None => JUndefined
         end
  | JUndefined | JNull => Err TypeError
  | _ => Ok JUndefined
  end.

(** [props[k] = v] on the properties of an object: the value of an
    existing property is replaced in place, a new property is added
    last. *)
Fixpoint set (props : list (string * json)) (k : string) (v : json)
  : list (string * json) :=
  match props with
  | [] => [(k, v)]
  | (k', v') :: props' =>
      if k' =? k then (k, v) :: props' else (k', v') :: set props' k v
  end.

(** [delete x.k]: nothing to delete on a value that is not an object. *)
Fixpoint remove (k : string) (props : list (string * json))
  : list (string * json) :=
  match props with
  | [] => []
  | (k', v) :: props' =>
      if k' =? k then remove k props' else (k', v) :: remove k props'
  end.

Definition delete (x : json) (k : string) : json :=
  match x with
  | JObj props => JObj (remove k props)
  | _ => x
  end.

(** The text of an element in [Array.prototype.join]. *)
Definition join_text (u : json) : result string :=
  match u with
  | JUndefined | JNull => Ok ""
  | _ => toString u
  end.

(** The texts of the elements, in order, up to the first that throws. *)
Fixpoint join_texts (l : list json) : result (list string) :=
  match l with
  | [] => Ok []
  | u :: l' =>
      t <- join_text u ;;
      ts <- join_texts l' ;;
      Ok (t :: ts)
  end.

(** [x.join(sep)]: only an array has the method. *)
Definition array_join (x : json) (sep : string) : result string :=
  match x with
  | JArr l =>
      texts <- join_texts l ;;
      Ok (join sep texts)
  | _ => Err TypeError
  end.

(** [s.split(sep)] for a separator of one character: the pieces between
    the separators, one piece at least. *)
Fixpoint split_on (sep : ascii) (s : string) : list string :=
  match s with
  | EmptyString => [""]
  | String c s' =>
      if Ascii.eqb c sep then "" :: split_on sep s'
      else match split_on sep s' with
           | piece :: pieces => String c piece :: pieces
           | [] => [String c ""]
           end
  end.

(** [x.split(',')]: only a string has the method. *)
Definition string_split (x : json) : result (list string) :=
  match x with
  | JStr s => Ok (split_on "," s)
  | _ => Err TypeError
  end.

(** The white space and line terminators [trim] removes, among the code
    units below 256: tab, line feed, vertical tab, form feed, carriage
    return, space and no-break space. *)
Definition is_white (c : ascii) : bool :=
  existsb (Nat.eqb (nat_of_ascii c)) [9; 10; 11; 12; 13; 32; 160]%nat.

Fixpoint trim_start (s : string) : string :=
  match s with
  | EmptyString => ""
  | String c s' => if is_white c then trim_start s' else s
  end.

Fixpoint trim_end (s : string) : string :=
  match s with
  | EmptyString => ""
  | String c s' =>
      match trim_end s' with
      | EmptyString => if is_white c then "" else String c ""
      | t => String c t
      end
  end.

Definition trim (s : string) : string := trim_end (trim_start s).

(** The filter [(u) => u.toString().trim().length > 0] on the pieces. *)
Definition not_blank (u : string) : bool :=
  (0 <? String.length (trim u))%nat.

(** The own enumerable properties [_.assign] copies from a source: the
    properties of an object, the elements of an array and the characters
    of a string under their indices, none for a number or a boolean. *)
Fixpoint indexed_elems (i : nat) (l : list json) : list (string * json) :=
  match l with
  | [] => []
  | u :: l' => (string_of_nat i, u) :: indexed_elems (S i) l'
  end.

Fixpoint indexed_chars (i : nat) (s : string) : list (string * json) :=
  match s with
  | EmptyString => []
  | String c s' =>
      (string_of_nat i, JStr (String c "")) :: indexed_chars (S i) s'
  end.

Definition own_entries (x : json) : list (string * json) :=
  match x with
  | JObj props => props
  | JArr l => indexed_elems 0 l
  | JStr s => indexed_chars 0 s
  | _ => []
  end.

(** [_.assign(object, source)]: a falsy source is skipped; the properties
    of the object are listed in insertion order, which is the order of
    enumeration when no key is an array index. *)
Definition assign (object : list (string * json)) (source : json)
  : list (string * json) :=
  if truthy source then
    fold_left (fun o kv => set o (fst kv) (snd kv)) (own_entries source) object
  else object.

(** [(x.labels || []).join(',')]. *)
Definition labels_text (x : json) : result string :=
  labels <- get x "labels" ;;
  array_join (or_else labels (JArr [])) ",".

(** [(r.labels || '').split(',').filter(...)]. *)
Definition labels_list (r : json) : result json :=
  labels <- get r "labels" ;;
  pieces <- string_split (or_else labels (JStr "")) ;;
  Ok (JArr (map JStr (filter not_blank pieces))).

Definition nodeSpecsToRecord (specs : json) : result json :=
  id <- get specs "id" ;;
  labels <- labels_text specs ;;
  data <- get specs "data" ;;
  Ok (JObj [("id", id); ("labels", JStr labels); ("data", data)]).

Definition edgeSpecsToRecord (specs : json) : result json :=
  id <- get specs "id" ;;
  sourceId <- get specs "sourceId" ;;
  targetId <- get specs "targetId" ;;
  labels <- labels_text specs ;;
  data <- get specs "data" ;;
  Ok (JObj [("id", id); ("sourceId", sourceId); ("targetId", targetId);
            ("labels", JStr labels); ("data", data)]).

(** [_.clone] copies the value; the copy is what the [delete]s change. *)
Definition edgeToDbRecord (e : json) : result json :=
  let u := e in
  id <- get u "id" ;;
  labels <- labels_text u ;;
  sourceId <- get u "sourceId" ;;
  targetId <- get u "targetId" ;;
  let u := delete u "id" in
  let u := delete u "labels" in
  let u := delete u "sourceId" in
  let u := delete u "targetId" in
  Ok (JObj [("id", id); ("labels", JStr labels); ("sourceId", sourceId);
            ("targetId", targetId); ("data", u)]).

Definition nodeToDbRecord (n : json) : result json :=
  let u := n in
  id <- get u "id" ;;
  labels <- labels_text u ;;
  let u := delete u "id" in
  let u := delete u "labels" in
  Ok (JObj [("id", id); ("labels", JStr labels); ("data", u)]).

Definition dbRecordToEdge (r : json) : result json :=
  id <- get r "id" ;;
  sourceId <- get r "sourceId" ;;
  targetId <- get r "targetId" ;;
  labels <- labels_list r ;;
  data <- get r "data" ;;
  Ok (JObj (assign [("id", id); ("sourceId", sourceId);
                    ("targetId", targetId); ("labels", labels)] data)).

Definition dbRecordToNode (r : json) : result json :=
  id <- get r "id" ;;
  labels <- labels_list r ;;
  data <- get r "data" ;;
  Ok (JObj (assign [("id", id); ("labels", labels)] data)).

(** *** Words for the properties below *)

(** A label that survives the record: no comma in it, and something left
    of it after trimming. *)
Fixpoint comma_free (s : string) : bool :=
  match s with
  | EmptyString => true
  | String c s' => negb (Ascii.eqb c ",") && comma_free s'
  end.

Definition storable_label (l : string) : bool := comma_free l && not_blank l.

(** A value that has a text: no object with an own property named
    [toString] in it, at any depth of nested arrays. *)
Fixpoint printable (u : json) : bool :=
  match u with
  | JObj props => negb (existsb (fun kv => fst kv =? "toString") props)
  | JArr l => forallb printable l
  | _ => true
  end.

(** The conversion to text fails exactly on the values that are not
    printable, with a type error. *)
Definition text_or_type_error {A : Type} (m : result A) (ok : bool) : Prop :=
  match m with
  | Ok _ => ok = true
  | Err e => ok = false /\ e = TypeError
  end.

(** The value read under a key: [undefined] when the key is absent. *)
Definition or_undefined (o : option json) : json :=
  match o with
  | Some v => v
  | None => JUndefined
  end.

End Utils.

(* ================================================================== *)
(** ** The renderer's symbol table, for the properties below *)

Module ProjectionsWords.

(** The symbol table of [getSqlOperator], keyword by keyword. *)
Definition symbol_pairs : list (string * string) :=
  [("$eq", "="); ("$lt", "<"); ("$lte", "<="); ("$gt", ">"); ("$gte", ">=");
   ("$in", "in"); ("$and", "and"); ("$or", "or")].

(** The operands [getOperand] has no text for: [null], [undefined] and
    objects. *)
Definition unformatted (o : json) : bool :=
  match o with
  | JUndefined | JNull | JObj _ => true
  | _ => false
  end.

End ProjectionsWords.

(* ================================================================== *)
(** ** The translator's accumulator and vocabulary, for the properties
    below *)

Module TranslatorWords.
Import Translator.

(** The outcome of a rewriting step run on an empty accumulator, replayed
    after the predicates [specialCases] already collected. *)
Definition extend {A : Type} (specialCases : list sq)
  (m : result (A * list sq)) : result (A * list sq) :=
  match m with
  | Ok (a, added) => Ok (a, (specialCases ++ added)%list)
  | Err e => Err e
  end.

(** A rewriting function [f] frames the accumulator: it only appends to
    it, and what it does is the same after any accumulator. *)
Definition frames {A : Type} (f : list sq -> result (A * list sq)) : Prop :=
  forall sc sc0, f (sc ++ sc0)%list = extend sc (f sc0).

(** A rewriting function [f] keeps the property [I] of the accumulator. *)
Definition keeps {A : Type} (I : list sq -> Prop)
  (f : list sq -> result (A * list sq)) : Prop :=
  forall sc a sc', I sc -> f sc = Ok (a, sc') -> I sc'.

(** A standalone predicate on the length of a JSON array of the [data]
    column. *)
Definition is_length_where (c : sq) : bool :=
  match c with
  | SWhere fn col _ _ => (fn =? "json_array_length") && (col =? "data")
  | _ => false
  end.

(** The connector keywords and their Sequelize symbols. *)
Definition connector_symbols : list (string * Op) :=
  [("$eq", Op_eq); ("$lt", Op_lt); ("$lte", Op_lte); ("$gt", Op_gt);
   ("$gte", Op_gte); ("$in", Op_in); ("$and", Op_and); ("$or", Op_or);
   ("$startsWith", Op_startsWith); ("$contains", Op_substring)].

(** A plain object made of attributes only. *)
Definition attribute_object_value (u : json) : Prop :=
  isPlainObject u = true /\ attribute_tree u.

(** *** The contract of the translator, as a pure function *)

(** The key of the mapping for a key of the filter: the operator symbol
    of a connector keyword, [id] and [labels] as they are, any other key
    under the [data.] namespace. *)
Definition spec_key (k : string) : key :=
  match find (fun c => fst c =? k) connector_symbols with
  | Some (_, sym) => KSym sym
  | None => KStr (data_key k)
  end.

(** The operand of the length keyword in a nested mapping, if it has
    one. *)
Definition length_operand (props : list (string * json)) : option json :=
  option_map snd (find (fun kv => fst kv =? "$size") props).

(** What the entry [k: u] of a filter adds to the mapping [r]: nothing
    when [u] is a mapping with the length keyword; else the property
    [spec_key k], over the translated mapping, the translated elements of
    a sequence, or the value as it is. *)
Definition entry_mapping (translated : json -> object) (k : string)
  (u : json) (r : object) : object :=
  match u with
  | JObj props =>
      match length_operand props with
      | Some _ => r
      | None => obj_set r (spec_key k) (SObj (translated u))
      end
  | JArr us =>
      obj_set r (spec_key k) (SArr (map (fun x => SObj (translated x)) us))
  | _ => obj_set r (spec_key k) (SVal u)
  end.

(** The standalone predicates of the entry [k: u]: the length predicate
    at the path of [k], or those found inside [u], in order. *)
Definition entry_predicates (collected : json -> list sq) (k : string)
  (u : json) : list sq :=
  match u with
  | JObj props =>
      match length_operand props with
      | Some logic => [SWhere "json_array_length" "data" (json_path k) logic]
      | None => collected u
      end
  | JArr us => flat_map collected us
  | _ => []
  end.

(** The entry [k: u] is accepted: [k] is not the length keyword, and what
    is translated inside [u] is accepted. *)
Definition entry_accepted (accepted : json -> bool) (k : string) (u : json)
  : bool :=
  negb (k =? "$size")
  && match u with
     | JObj props =>
         match length_operand props with
         | Some _ => true
         | None => accepted u
         end
     | JArr us => forallb accepted us
     | _ => true
     end.

(** The mapping [P] of a filter.  The entries of an array are its
    elements under their indices, those of a string its characters. *)
Fixpoint translated (v : json) : object :=
  match v with
  | JObj props =>
      (fix go (ps : list (string * json)) (r : object) : object :=
         match ps with
         | [] => r
         | (k, u) :: ps' => go ps' (entry_mapping translated k u r)
         end) props []
  | JArr elems =>
      (fix go (i : nat) (us : list json) (r : object) : object :=
         match us with
         | [] => r
         | u :: us' =>
             go (S i) us' (entry_mapping translated (string_of_nat i) u r)
         end) 0%nat elems []
  | JStr s => chars_object 0 s
  | _ => []
  end.

(** The standalone predicates [S] of a filter, in the order of its
    entries. *)
Fixpoint collected (v : json) : list sq :=
  match v with
  | JObj props =>
      (fix go (ps : list (string * json)) : list sq :=
         match ps with
         | [] => []
         | (k, u) :: ps' => (entry_predicates collected k u ++ go ps')%list
         end) props
  | JArr elems =>
      (fix go (i : nat) (us : list json) : list sq :=
         match us with
         | [] => []
         | u :: us' =>
             (entry_predicates collected (string_of_nat i) u
                ++ go (S i) us')%list
         end) 0%nat elems
  | _ => []
  end.

(** The filters the translator accepts: all but [null] and [undefined],
    the filters with the length keyword among their own keys, and those
    with an entry that is not accepted. *)
Fixpoint accepted (v : json) : bool :=
  match v with
  | JUndefined | JNull => false
  | JObj props =>
      (fix go (ps : list (string * json)) : bool :=
         match ps with
         | [] => true
         | (k, u) :: ps' => entry_accepted accepted k u && go ps'
         end) props
  | JArr elems =>
      (fix go (i : nat) (us : list json) : bool :=
         match us with
         | [] => true
         | u :: us' =>
             entry_accepted accepted (string_of_nat i) u && go (S i) us'
         end) 0%nat elems
  | _ => true
  end.

(** The loops of the three functions over the entries of an object and
    of an array, as functions of their own. *)
Definition translated_props : list (string * json) -> object -> object :=
  fix go (ps : list (string * json)) (r : object) : object :=
    match ps with
    | [] => r
    | (k, u) :: ps' => go ps' (entry_mapping translated k u r)
    end.

Definition translated_elems : nat -> list json -> object -> object :=
  fix go (i : nat) (us : list json) (r : object) : object :=
    match us with
    | [] => r
    | u :: us' =>
        go (S i) us' (entry_mapping translated (string_of_nat i) u r)
    end.

Definition collected_props : list (string * json) -> list sq :=
  fix go (ps : list (string * json)) : list sq :=
    match ps with
    | [] => []
    | (k, u) :: ps' => (entry_predicates collected k u ++ go ps')%list
    end.

Definition collected_elems : nat -> list json -> list sq :=
  fix go (i : nat) (us : list json) : list sq :=
    match us with
    | [] => []
    | u :: us' =>
        (entry_predicates collected (string_of_nat i) u ++ go (S i) us')%list
    end.

Definition accepted_props : list (string * json) -> bool :=
  fix go (ps : list (string * json)) : bool :=
    match ps with
    | [] => true
    | (k, u) :: ps' => entry_accepted accepted k u && go ps'
    end.

Definition accepted_elems : nat -> list json -> bool :=
  fix go (i : nat) (us : list json) : bool :=
    match us with
    | [] => true
    | u :: us' =>
        entry_accepted accepted (string_of_nat i) u && go (S i) us'
    end.

(** A rewriting step does what the contract says: it returns exactly when
    the contract accepts, and then the mapping [p] and the accumulator
    with the predicates [added] after it. *)
Definition meets {A : Type} (m : result (A * list sq)) (ok : bool) (p : A)
  (sc added : list sq) : Prop :=
  match m with
  | Ok st => ok = true /\ st = (p, (sc ++ added)%list)
  | Err _ => ok = false
  end.

End TranslatorWords.

(* ================================================================== *)
(** ** Numbers as text *)

Example string_of_Z_12 : string_of_Z 12 = "12".
Proof. reflexivity. Qed.

Example string_of_Z_0 : string_of_Z 0 = "0".
Proof. reflexivity. Qed.

Example string_of_Z_neg : string_of_Z (-45) = "-45".
Proof. reflexivity. Qed.

Example string_of_nat_10 : string_of_nat 10 = "10".
Proof. reflexivity. Qed.

(* ================================================================== *)
(** ** Properties of the string renderer *)

Module ProjectionsSpec.
Import Projections.

(** An induction principle for operator trees that reaches the children. *)
Lemma node_induction (P : node -> Prop) :
  (forall o f opd, P (Node o f opd None)) ->
  (forall o f opd ps, Forall P ps -> P (Node o f opd (Some ps))) ->
  forall q, P q.
Proof.
  intros Hnone Hsome.
  fix IH 1.
  intros [o f opd [ps|]]; [|apply Hnone].
  apply Hsome.
  induction ps as [|p ps IHps]; constructor; [apply IH | exact IHps].
Qed.

Lemma toSQL_unfold (o f : option string) (opd : json)
  (ps : option (list node)) (variable : string) (level : nat) :
  toSQL (Node o f opd ps) variable level =
  let trailing (s : string) :=
    match ps with
    | None => Err TypeError
    | Some us =>
        if (0 <? List.length us)%nat then append_parts variable level us s
        else Ok s
    end in
  match truthy o with
  | Some op =>
      match truthy f with
      | Some fl =>
          s <- (if isArray opd then
                  if op =? "$all" then
                    Ok ("(" ++ interpolate (getOperand opd)
                          ++ " in " ++ variable ++ "." ++ fl ++ ")")
                  else
                    sym <- getSqlOperator op ;;
                    Ok ("(" ++ variable ++ "." ++ fl ++ " " ++ sym
                          ++ " (" ++ interpolate (getOperand opd) ++ "))")
                else
                  if op =? "$size" then
                    Ok ("(length(" ++ variable ++ "." ++ fl ++ ") = "
                          ++ interpolate (getOperand opd) ++ ")")
                  else if op =? "$startsWith" then
                    t <- toString opd ;;
                    Ok ("(" ++ variable ++ "." ++ fl ++ " like '"
                          ++ t ++ "%')")
                  else if op =? "$contains" then
                    t <- toString opd ;;
                    Ok ("(" ++ variable ++ "." ++ fl ++ " like '%"
                          ++ t ++ "%')")
                  else if op =? "$regex" then
                    t <- toString opd ;;
                    Ok ("(" ++ variable ++ "." ++ fl ++ " regexp '"
                          ++ t ++ "')")
                  else
                    sym <- getSqlOperator op ;;
                    Ok ("(" ++ variable ++ "." ++ fl ++ " " ++ sym ++ " "
                          ++ interpolate (getOperand opd) ++ ")")) ;;
          trailing s
      | None =>
          conjunctor <- getSqlOperator op ;;
          coll <- match ps with
                  | None => Err TypeError
                  | Some us => push_parts variable us []
                  end ;;
          Ok (join (" " ++ conjunctor ++ " ") coll)
      end
  | None => trailing ""
  end.
Proof. reflexivity. Qed.

Lemma truthy_nonempty (x : string) : x <> "" -> truthy (Some x) = Some x.
Proof. destruct x; [congruence | reflexivity]. Qed.

Lemma truthy_Some (x : option string) (y : string) :
  truthy x = Some y -> x = Some y /\ y <> "".
Proof.
  destruct x as [[|c x]|]; simpl; intros H; inversion H; subst.
  split; [reflexivity | discriminate].
Qed.

Lemma append_assoc (a b c : string) : (a ++ b) ++ c = a ++ (b ++ c).
Proof. induction a as [|x a IH]; simpl; [reflexivity | now rewrite IH]. Qed.

Lemma append_empty_r (a : string) : a ++ "" = a.
Proof. induction a as [|x a IH]; simpl; [reflexivity | now rewrite IH]. Qed.

Lemma length_append (a b : string) :
  String.length (a ++ b) = (String.length a + String.length b)%nat.
Proof. induction a as [|x a IH]; simpl; [reflexivity | now rewrite IH]. Qed.

Ltac decide_keyword op H :=
  repeat match goal with
    | |- context [String.eqb op ?k] =>
        destruct (String.eqb_spec op k) as [->|_];
        [exfalso; apply H; simpl; tauto|]
    end.

Lemma getSqlOperator_unknown (op : string) :
  ~ In op symbol_table ->
  getSqlOperator op = Err (Error ("Unrecognized operator '" ++ op ++ "'.")).
Proof.
  intros H. unfold getSqlOperator. decide_keyword op H. reflexivity.
Qed.

Lemma getSqlOperator_known (op : string) :
  In op symbol_table -> exists sym, getSqlOperator op = Ok sym.
Proof.
  simpl. intros H.
  repeat (destruct H as [<-|H]; [eexists; reflexivity|]).
  contradiction.
Qed.

(** The trailing loop appends the renderings of the children, in order. *)
Lemma append_parts_ok (variable : string) (level : nat) (ps : list node)
  (rs : list string) :
  Forall2 (fun p r => toSQL p variable (level + 1) = Ok r) ps rs ->
  forall s, append_parts variable level ps s = Ok (s ++ concatenation rs).
Proof.
  induction 1 as [|p r ps rs Hp _ IH]; intros s; simpl.
  - now rewrite append_empty_r.
  - rewrite Hp. simpl. rewrite IH. now rewrite append_assoc.
Qed.

(** The container loop collects the renderings of the children, in order. *)
Lemma push_parts_ok (variable : string) (ps : list node) (rs : list string) :
  Forall2 (fun p r => toSQL p variable 0 = Ok r) ps rs ->
  forall coll, push_parts variable ps coll = Ok (coll ++ rs)%list.
Proof.
  induction 1 as [|p r ps rs Hp _ IH]; intros coll; simpl.
  - now rewrite app_nil_r.
  - rewrite Hp. simpl. rewrite IH. now rewrite <- app_assoc.
Qed.

Lemma append_parts_level (variable : string) (l l' : nat) (ps : list node) :
  Forall (fun p => forall v a b, toSQL p v a = toSQL p v b) ps ->
  forall s, append_parts variable l ps s = append_parts variable l' ps s.
Proof.
  induction 1 as [|p ps Hp _ IH]; intros s; simpl; [reflexivity|].
  rewrite (Hp variable (l + 1)%nat (l' + 1)%nat).
  destruct (toSQL p variable (l' + 1)); simpl; [apply IH | reflexivity].
Qed.

(** The [level] argument has no effect on the result. *)
Lemma toSQL_level (q : node) :
  forall variable l l', toSQL q variable l = toSQL q variable l'.
Proof.
  induction q as [o f opd|o f opd ps IH] using node_induction;
    intros variable l l';
    rewrite (toSQL_unfold _ _ _ _ _ l), (toSQL_unfold _ _ _ _ _ l');
    cbv zeta; [reflexivity|].
  pose proof (append_parts_level variable l l' IH) as H.
  destruct (truthy o); [destruct (truthy f)|]; try reflexivity.
  - match goal with |- bind ?X _ = _ => destruct X end; simpl; [|reflexivity].
    destruct (0 <? List.length ps)%nat; [apply H | reflexivity].
  - destruct (0 <? List.length ps)%nat; [apply H | reflexivity].
Qed.

Lemma root_single (q : node) (variable r : string) (level : nat) :
  toSQL q variable (level + 1) = Ok r ->
  toSQL (root [q]) variable level = Ok r.
Proof.
  intros H. unfold root. rewrite toSQL_unfold. simpl. now rewrite H.
Qed.

Lemma literal_text_getOperand (o : json) (t : string) :
  literal_text o = Some t -> getOperand o = Some t /\ isArray o = false.
Proof. destruct o; simpl; intros H; try discriminate; now split. Qed.

Lemma verbatim_text_toString (o : json) (t : string) :
  verbatim_text o = Some t -> toString o = Ok t.
Proof. destruct o; simpl; intros H; try discriminate; now inversion H. Qed.

Lemma getOperand_elements (l : list json) (texts : list string) :
  Forall2 (fun u t => literal_text u = Some t) l texts ->
  map (fun u => match getOperand u with Some s => s | None => "" end) l = texts.
Proof.
  induction 1 as [|u t l texts Hu _ IH]; simpl; [reflexivity|].
  destruct (literal_text_getOperand _ Hu) as [-> _]. now rewrite IH.
Qed.

Lemma getOperand_array (l : list json) (texts : list string) :
  Forall2 (fun u t => literal_text u = Some t) l texts ->
  getOperand (JArr l) = Some (sequence_text texts).
Proof.
  intros H. pose proof (getOperand_elements H) as E.
  destruct H as [|u t l texts Hu H]; [reflexivity|].
  change (getOperand (JArr (u :: l)))
    with (Some (join ", "
                  (map (fun u => match getOperand u with
                                 | Some s => s
                                 | None => ""
                                 end) (u :: l)))).
  now rewrite E.
Qed.

(** C4: a predicate leaf (a node with a field and an empty [parts]) with
    one of the five comparison operators and a scalar operand renders as [(<variable>.<field> <symbol> <operand>)],
    the symbol taken from the fixed table, a string operand single-quoted
    and a number or boolean bare; alone or under the top container. *)
Theorem C4_comparison_predicate (f op sym variable text : string) (o : json)
  (level : nat) :
  f <> "" ->
  In (op, sym) comparison_symbols ->
  literal_text o = Some text ->
  toSQL (predicate f op o) variable level
    = Ok ("(" ++ variable ++ "." ++ f ++ " " ++ sym ++ " " ++ text ++ ")")
  /\ toSQL (root [predicate f op o]) variable level
    = Ok ("(" ++ variable ++ "." ++ f ++ " " ++ sym ++ " " ++ text ++ ")").
Proof.
  intros Hf Hop Ho.
  assert (forall lvl, toSQL (predicate f op o) variable lvl
    = Ok ("(" ++ variable ++ "." ++ f ++ " " ++ sym ++ " " ++ text ++ ")")) as H.
  { intros lvl. unfold predicate. rewrite toSQL_unfold.
    rewrite (truthy_nonempty Hf).
    destruct (literal_text_getOperand _ Ho) as [-> ->].
    simpl in Hop.
    repeat (destruct Hop as [Hop|Hop]; [inversion Hop; subst; reflexivity|]).
    contradiction. }
  split; [apply H | apply root_single, H].
Qed.

Lemma C4_comparison_predicate_witness :
  "x" <> "" /\ In ("$lt", "<") comparison_symbols
  /\ literal_text (JNum 12) = Some "12"
  /\ toSQL (predicate "x" "$lt" (JNum 12)) "n" 0 = Ok "(n.x < 12)"
  /\ toSQL (root [predicate "x" "$lt" (JNum 12)]) "n" 0 = Ok "(n.x < 12)".
Proof.
  assert ("x" <> "") as Hf by discriminate.
  assert (In ("$lt", "<") comparison_symbols) as Hop by (simpl; tauto).
  assert (literal_text (JNum 12) = Some "12") as Ho by reflexivity.
  exact (conj Hf (conj Hop (conj Ho
    (@C4_comparison_predicate "x" "$lt" "<" "n" "12" (JNum 12) 0 Hf Hop Ho)))).
Defined.

(** C2: on a predicate leaf with a scalar operand, [$size] renders as
    [(length(<variable>.<field>) = <operand>)] and not as
    [(<variable>.<field> = <operand>)]; [$startsWith], [$contains] and
    [$regex] render as the [like 'x%'], [like '%x%'] and [regexp 'x']
    forms with the operand placed verbatim inside the quotes. *)
Theorem C2_special_predicates (f variable lit raw : string) (o : json)
  (level : nat) :
  f <> "" ->
  literal_text o = Some lit ->
  verbatim_text o = Some raw ->
  toSQL (predicate f "$size" o) variable level
    = Ok ("(length(" ++ variable ++ "." ++ f ++ ") = " ++ lit ++ ")")
  /\ toSQL (predicate f "$size" o) variable level
    <> Ok ("(" ++ variable ++ "." ++ f ++ " = " ++ lit ++ ")")
  /\ toSQL (predicate f "$startsWith" o) variable level
    = Ok ("(" ++ variable ++ "." ++ f ++ " like '" ++ raw ++ "%')")
  /\ toSQL (predicate f "$contains" o) variable level
    = Ok ("(" ++ variable ++ "." ++ f ++ " like '%" ++ raw ++ "%')")
  /\ toSQL (predicate f "$regex" o) variable level
    = Ok ("(" ++ variable ++ "." ++ f ++ " regexp '" ++ raw ++ "')").
Proof.
  intros Hf Hlit Hraw. unfold predicate. rewrite !toSQL_unfold.
  rewrite (truthy_nonempty Hf).
  destruct (literal_text_getOperand _ Hlit) as [-> ->].
  rewrite (verbatim_text_toString _ Hraw). simpl.
  repeat split.
  intros H. inversion H as [E].
  apply (f_equal String.length) in E.
  repeat (simpl in E; rewrite ?length_append in E). lia.
Qed.

Lemma C2_special_predicates_witness :
  "v" <> "" /\ literal_text (JNum 13) = Some "13"
  /\ verbatim_text (JNum 13) = Some "13"
  /\ toSQL (predicate "v" "$size" (JNum 13)) "u" 0 = Ok "(length(u.v) = 13)"
  /\ toSQL (predicate "v" "$size" (JNum 13)) "u" 0 <> Ok "(u.v = 13)"
  /\ toSQL (predicate "v" "$startsWith" (JNum 13)) "u" 0 = Ok "(u.v like '13%')"
  /\ toSQL (predicate "v" "$contains" (JNum 13)) "u" 0 = Ok "(u.v like '%13%')"
  /\ toSQL (predicate "v" "$regex" (JNum 13)) "u" 0 = Ok "(u.v regexp '13')".
Proof.
  assert ("v" <> "") as Hf by discriminate.
  assert (literal_text (JNum 13) = Some "13") as Hl by reflexivity.
  assert (verbatim_text (JNum 13) = Some "13") as Hr by reflexivity.
  exact (conj Hf (conj Hl (conj Hr
    (@C2_special_predicates "v" "u" "13" "13" (JNum 13) 0 Hf Hl Hr)))).
Defined.

(** C5: on a predicate leaf with an array operand, [$all] renders as
    [(<renderedOperand> in <variable>.<field>)], the containment reversed,
    and [$in] as [(<variable>.<field> in (<renderedOperand>))]; the
    rendered operand is [[]] for the empty array and otherwise the
    elements, each formatted as a literal, joined with a comma and a
    space. *)
Theorem C5_array_operand (f variable : string) (l : list json)
  (texts : list string) (level : nat) :
  f <> "" ->
  Forall2 (fun u t => literal_text u = Some t) l texts ->
  toSQL (predicate f "$all" (JArr l)) variable level
    = Ok ("(" ++ sequence_text texts ++ " in " ++ variable ++ "." ++ f ++ ")")
  /\ toSQL (predicate f "$in" (JArr l)) variable level
    = Ok ("(" ++ variable ++ "." ++ f ++ " in (" ++ sequence_text texts ++ "))").
Proof.
  intros Hf Hl. unfold predicate. rewrite !toSQL_unfold.
  rewrite (truthy_nonempty Hf), (getOperand_array Hl).
  split; reflexivity.
Qed.

Lemma C5_array_operand_witness :
  "labels" <> "" /\ "x" <> ""
  /\ Forall2 (fun u t => literal_text u = Some t) [JStr "A"] ["'A'"]
  /\ Forall2 (fun u t => literal_text u = Some t)
       [JStr "a"; JStr "b"] ["'a'"; "'b'"]
  /\ toSQL (predicate "labels" "$all" (JArr [JStr "A"])) "n" 0
     = Ok "('A' in n.labels)"
  /\ toSQL (predicate "x" "$in" (JArr [JStr "a"; JStr "b"])) "n" 0
     = Ok "(n.x in ('a', 'b'))".
Proof.
  assert ("labels" <> "") as Hl by discriminate.
  assert ("x" <> "") as Hx by discriminate.
  assert (Forall2 (fun u t => literal_text u = Some t) [JStr "A"] ["'A'"])
    as HA by (repeat constructor).
  assert (Forall2 (fun u t => literal_text u = Some t)
            [JStr "a"; JStr "b"] ["'a'"; "'b'"]) as Hab
    by (repeat constructor).
  exact (conj Hl (conj Hx (conj HA (conj Hab
    (conj (proj1 (@C5_array_operand "labels" "n" [JStr "A"] ["'A'"] 0 Hl HA))
          (proj2 (@C5_array_operand "x" "n" [JStr "a"; JStr "b"]
                    ["'a'"; "'b'"] 0 Hx Hab))))))).
Defined.

(** C6: a container (no field) with operator [$and] or [$or] returns the
    renderings of its children joined with [" and "] or [" or "], and
    nothing after them; a node without operator returns the renderings of
    its children concatenated. *)
Theorem C6_container (o f : option string) (opd : json) (ps : list node)
  (rs : list string) (variable : string) (level : nat) :
  truthy f = None ->
  Forall2 (fun p r => toSQL p variable 0 = Ok r) ps rs ->
  (o = Some "$and" ->
   toSQL (Node o f opd (Some ps)) variable level = Ok (join " and " rs))
  /\ (o = Some "$or" ->
      toSQL (Node o f opd (Some ps)) variable level = Ok (join " or " rs))
  /\ (truthy o = None ->
      toSQL (Node o f opd (Some ps)) variable level = Ok (concatenation rs)).
Proof.
  intros Hf Hps.
  rewrite toSQL_unfold, Hf. cbv zeta.
  repeat split; intros Ho.
  - subst o. simpl. now rewrite (push_parts_ok _ Hps).
  - subst o. simpl. now rewrite (push_parts_ok _ Hps).
  - rewrite Ho.
    assert (Forall2 (fun p r => toSQL p variable (level + 1) = Ok r) ps rs) as H.
    { eapply Forall2_impl; [|exact Hps].
      intros p r E. now rewrite (toSQL_level p variable (level + 1) 0). }
    destruct (0 <? List.length ps)%nat eqn:E.
    + now rewrite (append_parts_ok _ _ H).
    + destruct H; [reflexivity | discriminate].
Qed.

Lemma C6_container_witness :
  let ps := [predicate "x" "$lt" (JNum 45); predicate "x" "$eq" (JStr "S")] in
  truthy None = None
  /\ Forall2 (fun p r => toSQL p "u" 0 = Ok r) ps ["(u.x < 45)"; "(u.x = 'S')"]
  /\ toSQL (Node (Some "$and") None JUndefined (Some ps)) "u" 0
     = Ok "(u.x < 45) and (u.x = 'S')"
  /\ toSQL (Node (Some "$or") None JUndefined (Some ps)) "u" 0
     = Ok "(u.x < 45) or (u.x = 'S')"
  /\ toSQL (Node None None JUndefined (Some ps)) "u" 0
     = Ok "(u.x < 45)(u.x = 'S')".
Proof.
  intros ps.
  assert (truthy None = None) as Hf by reflexivity.
  assert (Forall2 (fun p r => toSQL p "u" 0 = Ok r) ps
            ["(u.x < 45)"; "(u.x = 'S')"]) as Hps
    by (repeat constructor).
  pose proof (fun o => @C6_container o None JUndefined ps _ "u" 0 Hf Hps) as C.
  exact (conj Hf (conj Hps
    (conj (proj1 (C (Some "$and")) eq_refl)
       (conj (proj1 (proj2 (C (Some "$or"))) eq_refl)
          (proj2 (proj2 (C None)) eq_refl))))).
Defined.

(** C8: a predicate whose operator is neither in the symbol table nor
    taken by a special branch ([$all] for an array operand; [$size],
    [$startsWith], [$contains], [$regex] for any other operand) makes
    [toSQL] throw [Unrecognized operator '<keyword>'.]: no string is
    returned. *)
Theorem C8_unrecognized_operator (f op variable : string) (o : json)
  (ps : option (list node)) (level : nat) :
  f <> "" -> op <> "" ->
  ~ In op symbol_table ->
  (if isArray o then op <> "$all" else ~ In op scalar_branches) ->
  toSQL (Node (Some op) (Some f) o ps) variable level
    = Err (Error ("Unrecognized operator '" ++ op ++ "'.")).
Proof.
  intros Hf Hop Htable Hbranch.
  rewrite toSQL_unfold, (truthy_nonempty Hf), (truthy_nonempty Hop).
  rewrite (getSqlOperator_unknown Htable). cbv zeta.
  destruct (isArray o).
  - apply String.eqb_neq in Hbranch. now rewrite Hbranch.
  - decide_keyword op Hbranch. reflexivity.
Qed.

Lemma C8_unrecognized_operator_witness :
  "x" <> "" /\ "$eqq" <> "" /\ ~ In "$eqq" symbol_table
  /\ ~ In "$eqq" scalar_branches
  /\ toSQL (predicate "x" "$eqq" (JNum 1)) "n" 0
     = Err (Error "Unrecognized operator '$eqq'.").
Proof.
  assert ("x" <> "") as Hf by discriminate.
  assert ("$eqq" <> "") as Hop by discriminate.
  assert (~ In "$eqq" symbol_table) as Ht
    by (simpl; intros H; repeat (destruct H as [H|H]; [discriminate|]); exact H).
  assert (~ In "$eqq" scalar_branches) as Hb
    by (simpl; intros H; repeat (destruct H as [H|H]; [discriminate|]); exact H).
  exact (conj Hf (conj Hop (conj Ht (conj Hb
    (@C8_unrecognized_operator "x" "$eqq" "n" (JNum 1) (Some []) 0
       Hf Hop Ht Hb))))).
Defined.

(** C10: every node other than a container with an operator reaches the
    read of [q.parts.length]: without [parts] the call fails, and where
    the same node with [parts] returns a string, it fails with a type
    error. *)
Theorem C10_parts_required (o f : option string) (opd : json)
  (variable : string) (level : nat) :
  truthy o = None \/ truthy f <> None ->
  (exists e, toSQL (Node o f opd None) variable level = Err e)
  /\ (forall ps s,
        toSQL (Node o f opd (Some ps)) variable level = Ok s ->
        toSQL (Node o f opd None) variable level = Err TypeError).
Proof.
  intros H. split; [|intros ps s]; rewrite !toSQL_unfold; cbv zeta;
    destruct (truthy o) as [op|]; try (eexists; reflexivity); try reflexivity;
    destruct H as [H|H]; try discriminate;
    destruct (truthy f) as [fl|]; try congruence;
    match goal with |- context [bind ?X _] => destruct X as [t|e] end; simpl;
    try (eexists; reflexivity); try reflexivity; discriminate.
Qed.

Lemma C10_parts_required_witness :
  (truthy (Some "$eq") = None \/ truthy (Some "x") <> None)
  /\ toSQL (Node (Some "$eq") (Some "x") (JNum 12) (Some [])) "n" 0
     = Ok "(n.x = 12)"
  /\ toSQL (Node (Some "$eq") (Some "x") (JNum 12) None) "n" 0 = Err TypeError.
Proof.
  assert (truthy (Some "$eq") = None \/ truthy (Some "x") <> None) as H
    by (right; discriminate).
  assert (toSQL (Node (Some "$eq") (Some "x") (JNum 12) (Some [])) "n" 0
          = Ok "(n.x = 12)") as E by reflexivity.
  exact (conj H (conj E
    (proj2 (@C10_parts_required (Some "$eq") (Some "x") (JNum 12) "n" 0 H)
       [] "(n.x = 12)" E))).
Defined.

(** The renderings the tests of the repository expect, on trees with the
    top container. *)
Example render_in_numbers :
  toSQL1 (root [predicate "x" "$in" (JArr [JNum 1; JNum 2])])
  = Ok "(n.x in (1, 2))".
Proof. reflexivity. Qed.

Example render_gte :
  toSQL1 (root [predicate "x" "$gte" (JNum 12)]) = Ok "(n.x >= 12)".
Proof. reflexivity. Qed.

Example render_or :
  toSQL2 (root [Node (Some "$or") None JUndefined
                  (Some [predicate "x" "$eq" (JStr "R");
                         predicate "x" "$eq" (JStr "S")])]) "u"
  = Ok "(u.x = 'R') or (u.x = 'S')".
Proof. reflexivity. Qed.

Example render_contains :
  toSQL2 (root [predicate "s" "$contains" (JStr "aa")]) "w"
  = Ok "(w.s like '%aa%')".
Proof. reflexivity. Qed.

End ProjectionsSpec.

(* ================================================================== *)
(** ** Properties of the Sequelize translator *)

Module TranslatorSpec.
Import Translator.

Lemma rewrite_unfold (projector : json) (specialCases : list sq) :
  rewrite projector specialCases =
  match projector with
  | JObj props => rewrite_props props ([], specialCases)
  | JArr elems => rewrite_elems 0 elems ([], specialCases)
  | JStr s => rewrite_chars 0 s ([], specialCases)
  | JNum _ | JBool _ => Ok ([], specialCases)
  | JNull | JUndefined => Err TypeError
  end.
Proof. destruct projector; reflexivity. Qed.

Lemma Op_eqb_eq (a b : Op) : Op_eqb a b = true <-> a = b.
Proof. split; [destruct a, b; simpl; congruence | intros ->; now destruct b]. Qed.

Lemma key_eqb_eq (a b : key) : key_eqb a b = true <-> a = b.
Proof.
  destruct a as [s|o], b as [t|p]; simpl; split; try congruence.
  - intros H. apply String.eqb_eq in H. now subst.
  - intros H. inversion H. apply String.eqb_refl.
  - intros H. apply Op_eqb_eq in H. now subst.
  - intros H. inversion H. now apply Op_eqb_eq.
Qed.

(** Assigning under a key the object does not have appends the property. *)
Lemma obj_set_fresh (r : object) (k : key) (v : sq) :
  ~ In k (map fst r) -> obj_set r k v = (r ++ [(k, v)])%list.
Proof.
  induction r as [|[k' v'] r IH]; simpl; intros H; [reflexivity|].
  destruct (key_eqb k' k) eqn:E.
  - apply key_eqb_eq in E. tauto.
  - rewrite IH; tauto.
Qed.

Ltac decide_keyword op H :=
  repeat match goal with
    | |- context [String.eqb op ?k] =>
        destruct (String.eqb_spec op k) as [->|?];
        [try (exfalso; apply H; simpl; tauto)|]
    end.

(** A key without a case in the switch is an attribute name. *)
Lemma getSequelizeOperator_other (k : string) :
  ~ In k switch_keywords -> getSequelizeOperator k = Ok (KStr (data_key k)).
Proof.
  intros H. unfold getSequelizeOperator, data_key. cbn [existsb].
  decide_keyword k H; reflexivity.
Qed.

(** A key with a case in the switch gives a symbol, or the error of
    [$size]; never a string key. *)
Lemma getSequelizeOperator_switch (k : string) :
  In k switch_keywords -> forall s, getSequelizeOperator k <> Ok (KStr s).
Proof.
  simpl. intros H s.
  repeat (destruct H as [<-|H]; [discriminate|]). contradiction.
Qed.

Lemma data_key_other (k : string) :
  k <> "id" -> k <> "labels" -> data_key k = "data." ++ k.
Proof.
  intros H1 H2. unfold data_key.
  apply String.eqb_neq in H1, H2. now rewrite H1, H2.
Qed.

Lemma data_key_inj (a b : string) : data_key a = data_key b -> a = b.
Proof.
  unfold data_key.
  destruct (String.eqb_spec a "id") as [->|_];
    [|destruct (String.eqb_spec a "labels") as [->|_]];
    (destruct (String.eqb_spec b "id") as [->|_];
     [|destruct (String.eqb_spec b "labels") as [->|_]]);
    simpl; intros H; try discriminate H; try reflexivity; congruence.
Qed.

Lemma rewrite_props_cons (k : string) (v : json)
  (props : list (string * json)) (st : state) :
  rewrite_props ((k, v) :: props) st
  = (st' <- rewrite_body rewrite k v st ;; rewrite_props props st').
Proof. reflexivity. Qed.

(** An induction principle for values that reaches the elements of arrays
    and the values of properties. *)
Lemma json_induction (P : json -> Prop) :
  P JUndefined -> P JNull -> (forall b, P (JBool b)) ->
  (forall n, P (JNum n)) -> (forall s, P (JStr s)) ->
  (forall elems, Forall P elems -> P (JArr elems)) ->
  (forall props, Forall (fun kv => P (snd kv)) props -> P (JObj props)) ->
  forall v, P v.
Proof.
  intros Hu Hn Hb Hz Hs Ha Ho.
  fix IH 1.
  intros [| |b|n|s|elems|props].
  - exact Hu.
  - exact Hn.
  - apply Hb.
  - apply Hz.
  - apply Hs.
  - apply Ha.
    induction elems as [|u elems IHe]; constructor; [apply IH | exact IHe].
  - apply Ho.
    induction props as [|[k u] props IHp]; constructor; [apply IH | exact IHp].
Qed.

(** Without a keyword of the switch among the keys, the look-ahead finds
    no [$size]. *)
Lemma lookahead_none (props : list (string * json)) :
  Forall (fun kv => ~ In (fst kv) switch_keywords) props ->
  lookahead props = None.
Proof.
  induction 1 as [|[k v] props Hk _ IH]; [reflexivity|].
  simpl in Hk. cbn [lookahead existsb].
  destruct (String.eqb_spec k "$size") as [->|_]; [|exact IH].
  exfalso. apply Hk. tauto.
Qed.

Lemma renamed_object (props : list (string * json)) :
  renamed (JObj props) = SObj (renamed_props props).
Proof. reflexivity. Qed.

Lemma keys_renamed_props (props : list (string * json)) :
  map fst (renamed_props props)
  = map (fun kv => KStr (data_key (fst kv))) props.
Proof.
  induction props as [|[k v] props IH]; simpl; [reflexivity | now rewrite IH].
Qed.

(** The body of the loop on an attribute: the key is renamed and the
    renamed value assigned. *)
Lemma rewrite_body_attribute (k : string) (v : json) (r : object)
  (sc : list sq) :
  ~ In k switch_keywords -> attribute_tree v -> rewrites_to_renamed v ->
  rewrite_body rewrite k v (r, sc)
  = Ok (obj_set r (KStr (data_key k)) (renamed v), sc).
Proof.
  intros Hk Hv IH. unfold rewrite_body.
  rewrite (getSequelizeOperator_other Hk). cbn [bind].
  destruct v as [| |b|n|s|elems|props]; try reflexivity.
  - inversion Hv as [? Hleaf|]; subst. discriminate Hleaf.
  - rewrite (IH Hv props eq_refl sc).
    inversion Hv as [? Hleaf|? _ Hall]; subst; [discriminate Hleaf|].
    rewrite lookahead_none; [reflexivity|].
    eapply Forall_impl; [|exact Hall]. now intros kv [H _].
Qed.

Lemma rewrite_props_attributes (props : list (string * json)) :
  Forall (fun kv => rewrites_to_renamed (snd kv)) props ->
  NoDup (map fst props) ->
  Forall (fun kv => ~ In (fst kv) switch_keywords
                    /\ attribute_tree (snd kv)) props ->
  forall (r : object) (sc : list sq),
  (forall kv, In kv props -> ~ In (KStr (data_key (fst kv))) (map fst r)) ->
  rewrite_props props (r, sc) = Ok ((r ++ renamed_props props)%list, sc).
Proof.
  induction 1 as [|[k v] props Hv _ IH]; intros Hnd Hall r sc Hfresh.
  - simpl. now rewrite app_nil_r.
  - inversion Hnd as [|? ? Hk Hnd']; subst.
    inversion Hall as [|? ? [Hsw Htree] Hall']; subst.
    rewrite rewrite_props_cons.
    rewrite (@rewrite_body_attribute k v r sc Hsw Htree Hv).
    cbn [bind renamed_props].
    rewrite obj_set_fresh by (apply (Hfresh (k, v)); now left).
    rewrite IH; trivial.
    + now rewrite <- app_assoc.
    + intros kv Hin. rewrite map_app, in_app_iff. simpl.
      intros [H|[H|[]]].
      * apply (Hfresh kv); [now right | exact H].
      * inversion H as [E]. apply data_key_inj in E.
        apply Hk. rewrite E. now apply in_map.
Qed.

Lemma rewrite_attribute_tree (v : json) : rewrites_to_renamed v.
Proof.
  induction v as [| |b|n|s|elems _|props IH] using json_induction;
    intros Hv ps E; try discriminate E.
  inversion E; subst ps. intros sc.
  inversion Hv as [? Hleaf|? Hnd Hall]; subst; [discriminate Hleaf|].
  rewrite rewrite_unfold.
  apply (@rewrite_props_attributes props IH Hnd Hall [] sc).
  intros kv _ [].
Qed.

(** What [toSequelize] returns, from the mapping and the standalone
    predicates [rewrite] produced. *)
Lemma toSequelize_assembly (projector : json) (p : object) (S : list sq) :
  rewrite projector [] = Ok (p, S) ->
  toSequelize projector =
  Ok match S with
     | [] => descriptor p
     | _ => match keys p with
            | [] => where_ (SArr S)
            | _ => where_ (SArr (S ++ [SObj p]))
            end
     end.
Proof.
  intros H. unfold toSequelize. rewrite H. simpl.
  destruct S as [|c S]; simpl.
  - destruct p as [|[[k|o] v] p]; try reflexivity.
    simpl. now rewrite andb_false_r.
  - destruct (keys p); reflexivity.
Qed.

(** C3, as amended: of the thirteen reserved keywords exactly [$all] and
    [$regex] are rewritten to an attribute name under [data.]; the keys
    rewritten so are those without a case in the switch (the other eleven
    keywords) and other than [id] and [labels]. *)
Theorem C3_reserved_keywords_amended (k : string) :
  (In k reserved_keywords ->
   (getSequelizeOperator k = Ok (KStr ("data." ++ k))
    <-> k = "$all" \/ k = "$regex"))
  /\ (getSequelizeOperator k = Ok (KStr ("data." ++ k))
      <-> ~ In k switch_keywords /\ k <> "id" /\ k <> "labels").
Proof.
  split.
  - simpl. intros H.
    repeat (destruct H as [<-|H];
            [split; [intros E; try discriminate E; tauto
                    |intros [E|E]; try discriminate E; reflexivity]|]).
    contradiction.
  - split.
    + intros E.
      assert (~ In k switch_keywords) as Hsw.
      { intros Hin. exact (@getSequelizeOperator_switch k Hin _ E). }
      rewrite (getSequelizeOperator_other Hsw) in E.
      repeat split; trivial; intros ->; discriminate E.
    + intros (Hsw & Hid & Hlabels).
      now rewrite (getSequelizeOperator_other Hsw), data_key_other.
Qed.

Lemma C3_reserved_keywords_amended_witness :
  In "$regex" reserved_keywords
  /\ (getSequelizeOperator "$regex" = Ok (KStr "data.$regex")
      <-> "$regex" = "$all" \/ "$regex" = "$regex").
Proof.
  assert (In "$regex" reserved_keywords) as H by (simpl; tauto).
  exact (conj H (proj1 (C3_reserved_keywords_amended "$regex") H)).
Defined.

(** C3, as stated, fails: [$all] and [$regex] are reserved keywords, and
    the key rewrite puts both under the [data.] namespace. *)
Lemma C3_reserved_keywords_counterexample :
  In "$all" reserved_keywords
  /\ getSequelizeOperator "$all" = Ok (KStr "data.$all")
  /\ In "$regex" reserved_keywords
  /\ getSequelizeOperator "$regex" = Ok (KStr "data.$regex").
Proof. simpl. intuition. Qed.

(** The translations the tests of the repository expect. *)
Example translate_empty : toSequelize (JObj []) = Ok (SObj []).
Proof. reflexivity. Qed.

Example translate_id :
  toSequelize (JObj [("id", JNum 3)])
  = Ok (where_ (SObj [(KStr "id", SVal (JNum 3))])).
Proof. reflexivity. Qed.

Example translate_labels :
  toSequelize (JObj [("labels", JStr "c,v")])
  = Ok (where_ (SObj [(KStr "labels", SVal (JStr "c,v"))])).
Proof. reflexivity. Qed.

Example translate_attribute :
  toSequelize (JObj [("a", JNum 3)])
  = Ok (where_ (SObj [(KStr "data.a", SVal (JNum 3))])).
Proof. reflexivity. Qed.

Example translate_eq :
  toSequelize (JObj [("a", JObj [("$eq", JNum 4)])])
  = Ok (where_ (SObj [(KStr "data.a", SObj [(KSym Op_eq, SVal (JNum 4))])])).
Proof. reflexivity. Qed.

Example translate_contains :
  toSequelize (JObj [("a", JObj [("$contains", JNum 4)])])
  = Ok (where_ (SObj [(KStr "data.a",
                       SObj [(KSym Op_substring, SVal (JNum 4))])])).
Proof. reflexivity. Qed.

Example translate_size_then_attribute :
  toSequelize (JObj [("a", JObj [("$size", JNum 4)]); ("b", JNum 3)])
  = Ok (where_ (SArr [SWhere "json_array_length" "data" (json_path "a") (JNum 4);
                      SObj [(KStr "data.b", SVal (JNum 3))]])).
Proof. reflexivity. Qed.

(** A [$size] met as a key of its own is refused. *)
Example translate_size_key :
  toSequelize (JObj [("$size", JNum 3)])
  = Err (Error "Should have been handled separately already.").
Proof. reflexivity. Qed.

(** C1, at the filter [{$and: [{a: {$size: 4}}, {b: 3}]}]: the rewritten
    mapping has the one key [Op.and], a symbol, and a standalone predicate
    was collected; [toSequelize] returns the sequence of the standalone
    predicate alone, the mapping is not appended. *)
Theorem C1_symbol_keyed_mapping_dropped :
  let filter := JObj [("$and", JArr [JObj [("a", JObj [("$size", JNum 4)])];
                                     JObj [("b", JNum 3)]])] in
  let P := [(KSym Op_and,
             SArr [SObj []; SObj [(KStr "data.b", SVal (JNum 3))]])] in
  let S := [SWhere "json_array_length" "data" (json_path "a") (JNum 4)] in
  rewrite filter [] = Ok (P, S)
  /\ P <> []
  /\ toSequelize filter = Ok (where_ (SArr S))
  /\ toSequelize filter <> Ok (where_ (SArr (S ++ [SObj P]))).
Proof.
  cbv zeta. repeat split; discriminate.
Qed.

(** *** Indices as keys *)

(** On a value that is neither a plain object nor an array the body of the
    loop never calls [rewrite]: any function in its place gives the same
    result.  This is the case of the characters of a string. *)
Lemma rewrite_body_leaf_any (f g : json -> list sq -> result state)
  (k : string) (v : json) (st : state) :
  is_leaf v = true -> rewrite_body f k v st = rewrite_body g k v st.
Proof.
  destruct st as [r sc]. unfold rewrite_body.
  destruct v; simpl; intros H; try discriminate H; reflexivity.
Qed.

Lemma to_uint_nonnil (n : nat) : Nat.to_uint n <> Nil.
Proof.
  intros H.
  pose proof (DecimalNat.Unsigned.to_of (Nat.to_uint n)) as E.
  rewrite DecimalNat.Unsigned.of_to, H in E. discriminate E.
Qed.

Lemma string_of_nat_inj (a b : nat) : string_of_nat a = string_of_nat b -> a = b.
Proof.
  unfold string_of_nat. intros H.
  apply DecimalNat.Unsigned.to_uint_inj.
  assert (Some (Nat.to_uint a) = Some (Nat.to_uint b)) as E.
  { rewrite <- (NilZero.usu _ (to_uint_nonnil a)),
            <- (NilZero.usu _ (to_uint_nonnil b)).
    now rewrite H. }
  now inversion E.
Qed.

(** The decimal writing of an index starts with a digit: it is no keyword
    of the switch, nor [id] or [labels]. *)
Lemma getSequelizeOperator_index (i : nat) :
  getSequelizeOperator (string_of_nat i)
  = Ok (KStr ("data." ++ string_of_nat i)).
Proof.
  unfold string_of_nat, NilZero.string_of_uint.
  destruct (Nat.to_uint i); reflexivity.
Qed.

Lemma rewrite_chars_from (cs : string) :
  forall (i : nat) (r : object) (sc : list sq),
  (forall j, (i <= j)%nat ->
             ~ In (KStr ("data." ++ string_of_nat j)) (map fst r)) ->
  rewrite_chars i cs (r, sc) = Ok ((r ++ chars_object i cs)%list, sc).
Proof.
  induction cs as [|c cs IH]; intros i r sc Hfresh.
  - simpl. now rewrite app_nil_r.
  - change (rewrite_chars i (String c cs) (r, sc))
      with (st <- rewrite_body (fun _ _ => Err TypeError) (string_of_nat i)
                    (JStr (String c "")) (r, sc) ;;
            rewrite_chars (S i) cs st).
    unfold rewrite_body. rewrite getSequelizeOperator_index.
    cbn [bind chars_object].
    rewrite obj_set_fresh by (apply Hfresh; lia).
    rewrite IH.
    + now rewrite <- app_assoc.
    + intros j Hj. rewrite map_app, in_app_iff. simpl.
      intros [H|[H|[]]].
      * apply (Hfresh j); [lia | exact H].
      * inversion H as [E]. apply string_of_nat_inj in E. lia.
Qed.

(** [rewrite] of a string gives the object of its characters. *)
Lemma rewrite_string (s : string) (sc : list sq) :
  rewrite (JStr s) sc = Ok (chars_object 0 s, sc).
Proof.
  rewrite rewrite_unfold.
  apply (@rewrite_chars_from s 0%nat [] sc). intros j _ [].
Qed.

Lemma map_rewrite_scalars (l : list json) (images : list sq) (sc : list sq) :
  Forall2 (fun v img => scalar_image v = Some img) l images ->
  map_rewrite rewrite l sc = Ok (images, sc).
Proof.
  induction 1 as [|v img l images Hv _ IH]; [reflexivity|].
  change (map_rewrite rewrite (v :: l) sc)
    with ('(r, specialCases) <- rewrite v sc ;;
          '(rs, specialCases) <- map_rewrite rewrite l specialCases ;;
          Ok (SObj r :: rs, specialCases)).
  destruct v; simpl in Hv; try discriminate Hv; inversion Hv; subst;
    try rewrite rewrite_string; cbn [rewrite bind]; now rewrite IH.
Qed.

Lemma scalar_image_empty (l : list json) :
  Forall (fun v => isNumber v || isBoolean v = true) l ->
  Forall2 (fun v img => scalar_image v = Some img) l
    (map (fun _ => SObj []) l).
Proof.
  induction 1 as [|v l Hv _ IH]; simpl; constructor; trivial.
  destruct v; simpl in Hv; try discriminate Hv; reflexivity.
Qed.

(** C9, as amended: in [{f: {$in: [v1, ..., vn]}}] the array is rewritten
    element by element; a number or a boolean is replaced by the empty
    mapping, a string by the mapping of [data.<i>] to its character at
    index [i]; with numbers and booleans only the result is
    [{where: {'data.f': {[Op.in]: [{}, ..., {}]}}}]. *)
Theorem C9_array_elements_rewritten (f : string) (l : list json) :
  ~ In f switch_keywords ->
  (forall images,
     Forall2 (fun v img => scalar_image v = Some img) l images ->
     toSequelize (JObj [(f, JObj [("$in", JArr l)])])
     = Ok (where_ (SObj [(KStr (data_key f),
                          SObj [(KSym Op_in, SArr images)])])))
  /\ (Forall (fun v => isNumber v || isBoolean v = true) l ->
      toSequelize (JObj [(f, JObj [("$in", JArr l)])])
      = Ok (where_ (SObj [(KStr (data_key f),
                           SObj [(KSym Op_in,
                                  SArr (map (fun _ => SObj []) l))])]))).
Proof.
  intros Hf.
  assert (forall images,
     Forall2 (fun v img => scalar_image v = Some img) l images ->
     toSequelize (JObj [(f, JObj [("$in", JArr l)])])
     = Ok (where_ (SObj [(KStr (data_key f),
                          SObj [(KSym Op_in, SArr images)])]))) as H.
  { intros images Hl.
    apply (@toSequelize_assembly _
             [(KStr (data_key f), SObj [(KSym Op_in, SArr images)])] []).
    rewrite rewrite_unfold, rewrite_props_cons.
    unfold rewrite_body at 1.
    rewrite (getSequelizeOperator_other Hf).
    cbn [bind lookahead existsb String.eqb Ascii.eqb Bool.eqb orb].
    rewrite rewrite_unfold, rewrite_props_cons.
    unfold rewrite_body at 1.
    cbn [bind getSequelizeOperator String.eqb Ascii.eqb Bool.eqb].
    rewrite (map_rewrite_scalars [] Hl). reflexivity. }
  split; [exact H|].
  intros Hl. apply H, scalar_image_empty, Hl.
Qed.

Lemma C9_array_elements_rewritten_witness :
  ~ In "f" switch_keywords
  /\ toSequelize (JObj [("f", JObj [("$in", JArr [JNum 1; JBool true;
                                                   JStr "ab"])])])
     = Ok (where_ (SObj [(KStr "data.f",
             SObj [(KSym Op_in,
                    SArr [SObj []; SObj [];
                          SObj [(KStr "data.0", SVal (JStr "a"));
                                (KStr "data.1", SVal (JStr "b"))]])])]))
  /\ toSequelize (JObj [("f", JObj [("$in", JArr [JNum 1; JNum 2])])])
     = Ok (where_ (SObj [(KStr "data.f",
             SObj [(KSym Op_in, SArr [SObj []; SObj []])])])).
Proof.
  assert (~ In "f" switch_keywords) as Hf by (simpl; intuition discriminate).
  refine (conj Hf (conj _ _)).
  - apply (proj1 (@C9_array_elements_rewritten "f"
                    [JNum 1; JBool true; JStr "ab"] Hf)).
    repeat constructor.
  - apply (proj2 (@C9_array_elements_rewritten "f" [JNum 1; JNum 2] Hf)).
    repeat constructor.
Defined.

(** C9, as stated, fails on a string element and on [null]: the string
    ["ab"] becomes [{'data.0': 'a', 'data.1': 'b'}], not [{}], and a
    [null] element makes the call throw. *)
Lemma C9_scalar_elements_counterexample :
  toSequelize (JObj [("f", JObj [("$in", JArr [JStr "ab"])])])
  = Ok (where_ (SObj [(KStr "data.f",
          SObj [(KSym Op_in,
                 SArr [SObj [(KStr "data.0", SVal (JStr "a"));
                             (KStr "data.1", SVal (JStr "b"))]])])]))
  /\ toSequelize (JObj [("f", JObj [("$in", JArr [JStr "ab"])])])
     <> Ok (where_ (SObj [(KStr "data.f",
              SObj [(KSym Op_in, SArr [SObj []])])]))
  /\ toSequelize (JObj [("f", JObj [("$in", JArr [JNull])])])
     = Err TypeError.
Proof. repeat split; discriminate. Qed.

End TranslatorSpec.

(* ================================================================== *)
(** ** More properties of the Sequelize translator *)

Module TranslatorMore.
Import Translator TranslatorWords TranslatorSpec.

Lemma extend_nil {A : Type} (m : result (A * list sq)) : extend [] m = m.
Proof. destruct m as [[a added]|e]; reflexivity. Qed.

Lemma map_rewrite_frames (us : list json) :
  Forall (fun u => frames (rewrite u)) us ->
  frames (map_rewrite rewrite us).
Proof.
  induction 1 as [|u us Hu _ IH]; intros sc sc0; [reflexivity|].
  change (map_rewrite rewrite (u :: us) (sc ++ sc0)%list)
    with ('(r, specialCases) <- rewrite u (sc ++ sc0)%list ;;
          '(rs, specialCases) <- map_rewrite rewrite us specialCases ;;
          Ok (SObj r :: rs, specialCases)).
  change (map_rewrite rewrite (u :: us) sc0)
    with ('(r, specialCases) <- rewrite u sc0 ;;
          '(rs, specialCases) <- map_rewrite rewrite us specialCases ;;
          Ok (SObj r :: rs, specialCases)).
  rewrite (Hu sc sc0).
  destruct (rewrite u sc0) as [[r a]|e]; [|reflexivity].
  cbn [extend bind]. rewrite (IH sc a).
  destruct (map_rewrite rewrite us a) as [[rs a']|e]; reflexivity.
Qed.

Lemma rewrite_body_frames (f : json -> list sq -> result state) (k : string)
  (v : json) (r : object) :
  (isPlainObject v = true -> frames (f v)) ->
  (forall us, v = JArr us -> frames (map_rewrite f us)) ->
  frames (fun sc => rewrite_body f k v (r, sc)).
Proof.
  intros Hobj Harr sc sc0. unfold rewrite_body.
  destruct (getSequelizeOperator k) as [newKey|e]; [|reflexivity].
  cbn [bind].
  destruct v as [| |b|n|s|us|props]; try reflexivity.
  - rewrite (Harr us eq_refl sc sc0).
    destruct (map_rewrite f us sc0) as [[rs a]|e]; reflexivity.
  - destruct (lookahead props) as [logic|].
    + cbn [extend]. now rewrite app_assoc.
    + rewrite (Hobj eq_refl sc sc0).
      destruct (f (JObj props) sc0) as [[r' a]|e]; reflexivity.
Qed.

(** Induction on values, with the elements of an array value at hand. *)
Lemma json_induction_elems (P : json -> Prop) :
  P JUndefined -> P JNull -> (forall b, P (JBool b)) ->
  (forall n, P (JNum n)) -> (forall s, P (JStr s)) ->
  (forall elems,
     Forall (fun u => P u /\ forall us, u = JArr us -> Forall P us) elems ->
     P (JArr elems)) ->
  (forall props,
     Forall (fun kv => P (snd kv)
                       /\ forall us, snd kv = JArr us -> Forall P us) props ->
     P (JObj props)) ->
  forall v, P v.
Proof.
  intros Hu Hn Hb Hz Hs Ha Ho v.
  enough (P v /\ forall us, v = JArr us -> Forall P us) as [H _] by exact H.
  induction v as [| |b|n|s|elems IH|props IH] using json_induction;
    try (split; [auto | intros us E; discriminate E]).
  split; [now apply Ha|].
  intros us E. inversion E; subst us.
  eapply Forall_impl; [|exact IH]. now intros u [H _].
Qed.

Lemma rewrite_props_frames (props : list (string * json)) :
  Forall (fun kv => frames (rewrite (snd kv))
                    /\ forall us, snd kv = JArr us ->
                                  Forall (fun u => frames (rewrite u)) us)
    props ->
  forall r, frames (fun sc => rewrite_props props (r, sc)).
Proof.
  induction 1 as [|[k v] props [Hv Hus] _ IH]; intros r sc sc0.
  - reflexivity.
  - rewrite !rewrite_props_cons.
    rewrite (@rewrite_body_frames rewrite k v r (fun _ => Hv)
               (fun us E => map_rewrite_frames (Hus us E)) sc sc0).
    destruct (rewrite_body rewrite k v (r, sc0)) as [[r1 a]|e]; [|reflexivity].
    cbn [extend bind]. apply IH.
Qed.

Lemma rewrite_elems_frames (us : list json) :
  Forall (fun u => frames (rewrite u)
                   /\ forall us', u = JArr us' ->
                                  Forall (fun u' => frames (rewrite u')) us')
    us ->
  forall i r, frames (fun sc => rewrite_elems i us (r, sc)).
Proof.
  induction 1 as [|v us [Hv Hus] _ IH]; intros i r sc sc0.
  - reflexivity.
  - change (rewrite_elems i (v :: us) (r, (sc ++ sc0)%list))
      with (st <- rewrite_body rewrite (string_of_nat i) v (r, (sc ++ sc0)%list) ;;
            rewrite_elems (S i) us st).
    change (rewrite_elems i (v :: us) (r, sc0))
      with (st <- rewrite_body rewrite (string_of_nat i) v (r, sc0) ;;
            rewrite_elems (S i) us st).
    rewrite (@rewrite_body_frames rewrite (string_of_nat i) v r (fun _ => Hv)
               (fun us E => map_rewrite_frames (Hus us E)) sc sc0).
    destruct (rewrite_body rewrite (string_of_nat i) v (r, sc0))
      as [[r1 a]|e]; [|reflexivity].
    cbn [extend bind]. apply IH.
Qed.

Lemma rewrite_chars_frames (cs : string) :
  forall i r, frames (fun sc => rewrite_chars i cs (r, sc)).
Proof.
  induction cs as [|c cs IH]; intros i r sc sc0; [reflexivity|].
  change (rewrite_chars i (String c cs) (r, (sc ++ sc0)%list))
    with (st <- rewrite_body (fun _ _ => Err TypeError) (string_of_nat i)
                  (JStr (String c "")) (r, (sc ++ sc0)%list) ;;
          rewrite_chars (S i) cs st).
  change (rewrite_chars i (String c cs) (r, sc0))
    with (st <- rewrite_body (fun _ _ => Err TypeError) (string_of_nat i)
                  (JStr (String c "")) (r, sc0) ;;
          rewrite_chars (S i) cs st).
  unfold rewrite_body.
  destruct (getSequelizeOperator (string_of_nat i)) as [newKey|e];
    [|reflexivity].
  cbn [extend bind]. apply IH.
Qed.

Lemma rewrite_frames (v : json) : frames (rewrite v).
Proof.
  induction v as [| |b|n|s|elems IH|props IH] using json_induction_elems;
    intros sc sc0; rewrite !rewrite_unfold; try reflexivity.
  - apply (rewrite_chars_frames s 0%nat [] sc sc0).
  - apply (rewrite_elems_frames IH 0%nat [] sc sc0).
  - apply (rewrite_props_frames IH [] sc sc0).
Qed.

(** X1: [rewrite] only appends to the shared array [specialCases], and
    what it returns and appends does not depend on what the array held:
    run after the predicates [sc] it gives the mapping of the run on the
    empty array, with the predicates of that run after [sc]; it fails
    after [sc] exactly when it fails on the empty array. *)
Theorem X1_rewrite_appends (v : json) (sc : list sq) :
  rewrite v sc = extend sc (rewrite v []).
Proof.
  rewrite <- (app_nil_r sc) at 1. apply rewrite_frames.
Qed.

Section AccumulatorInvariant.

Variable I : list sq -> Prop.
Hypothesis I_push : forall sc key logic,
  I sc ->
  I (sc ++ [SWhere "json_array_length" "data" (json_path key) logic])%list.

Lemma map_rewrite_keeps (us : list json) :
  Forall (fun u => keeps I (rewrite u)) us ->
  keeps I (map_rewrite rewrite us).
Proof.
  induction 1 as [|u us Hu _ IH]; intros sc rs sc' Hsc E.
  - inversion E; now subst.
  - change (map_rewrite rewrite (u :: us) sc)
      with ('(r, specialCases) <- rewrite u sc ;;
            '(rs, specialCases) <- map_rewrite rewrite us specialCases ;;
            Ok (SObj r :: rs, specialCases)) in E.
    destruct (rewrite u sc) as [[r a]|e] eqn:Eu; [|discriminate E].
    cbn [bind] in E.
    destruct (map_rewrite rewrite us a) as [[rs' a']|e] eqn:Eus;
      [|discriminate E].
    inversion E; subst.
    exact (IH a rs' sc' (Hu sc r a Hsc Eu) Eus).
Qed.

Lemma rewrite_body_keeps (f : json -> list sq -> result state) (k : string)
  (v : json) (r : object) :
  (isPlainObject v = true -> keeps I (f v)) ->
  (forall us, v = JArr us -> keeps I (map_rewrite f us)) ->
  keeps I (fun sc => rewrite_body f k v (r, sc)).
Proof.
  intros Hobj Harr sc r' sc' Hsc E. unfold rewrite_body in E.
  destruct (getSequelizeOperator k) as [newKey|e]; [|discriminate E].
  cbn [bind] in E.
  destruct v as [| |b|n|s|us|props];
    try (inversion E; now subst).
  - destruct (map_rewrite f us sc) as [[rs a]|e] eqn:Eus; [|discriminate E].
    inversion E; subst. exact (Harr us eq_refl sc rs sc' Hsc Eus).
  - destruct (lookahead props) as [logic|].
    + inversion E; subst. now apply I_push.
    + destruct (f (JObj props) sc) as [[r1 a]|e] eqn:Ef; [|discriminate E].
      inversion E; subst. exact (Hobj eq_refl sc r1 sc' Hsc Ef).
Qed.

Lemma rewrite_props_keeps (props : list (string * json)) :
  Forall (fun kv => keeps I (rewrite (snd kv))
                    /\ forall us, snd kv = JArr us ->
                                  Forall (fun u => keeps I (rewrite u)) us)
    props ->
  forall r, keeps I (fun sc => rewrite_props props (r, sc)).
Proof.
  induction 1 as [|[k v] props [Hv Hus] _ IH]; intros r sc r' sc' Hsc E.
  - inversion E; now subst.
  - rewrite rewrite_props_cons in E.
    destruct (rewrite_body rewrite k v (r, sc)) as [[r1 a]|e] eqn:Eb;
      [|discriminate E].
    cbn [bind] in E.
    refine (IH r1 a r' sc' _ E).
    exact (@rewrite_body_keeps rewrite k v r (fun _ => Hv)
             (fun us Eus => map_rewrite_keeps (Hus us Eus)) sc r1 a Hsc Eb).
Qed.

Lemma rewrite_elems_keeps (us : list json) :
  Forall (fun u => keeps I (rewrite u)
                   /\ forall us', u = JArr us' ->
                                  Forall (fun u' => keeps I (rewrite u')) us')
    us ->
  forall i r, keeps I (fun sc => rewrite_elems i us (r, sc)).
Proof.
  induction 1 as [|v us [Hv Hus] _ IH]; intros i r sc r' sc' Hsc E.
  - inversion E; now subst.
  - change (rewrite_elems i (v :: us) (r, sc))
      with (st <- rewrite_body rewrite (string_of_nat i) v (r, sc) ;;
            rewrite_elems (S i) us st) in E.
    destruct (rewrite_body rewrite (string_of_nat i) v (r, sc))
      as [[r1 a]|e] eqn:Eb; [|discriminate E].
    cbn [bind] in E.
    refine (IH (S i) r1 a r' sc' _ E).
    exact (@rewrite_body_keeps rewrite (string_of_nat i) v r (fun _ => Hv)
             (fun us Eus => map_rewrite_keeps (Hus us Eus)) sc r1 a Hsc Eb).
Qed.

Lemma rewrite_chars_keeps (cs : string) :
  forall i r, keeps I (fun sc => rewrite_chars i cs (r, sc)).
Proof.
  induction cs as [|c cs IH]; intros i r sc r' sc' Hsc E.
  - inversion E; now subst.
  - change (rewrite_chars i (String c cs) (r, sc))
      with (st <- rewrite_body (fun _ _ => Err TypeError) (string_of_nat i)
                    (JStr (String c "")) (r, sc) ;;
            rewrite_chars (S i) cs st) in E.
    unfold rewrite_body in E.
    destruct (getSequelizeOperator (string_of_nat i)) as [newKey|e];
      [|discriminate E].
    cbn [bind] in E. exact (IH (S i) _ sc r' sc' Hsc E).
Qed.

Lemma rewrite_keeps (v : json) : keeps I (rewrite v).
Proof.
  induction v as [| |b|n|s|elems IH|props IH] using json_induction_elems;
    intros sc p sc' Hsc E; rewrite rewrite_unfold in E;
    try discriminate E; try (inversion E; now subst).
  - exact (@rewrite_chars_keeps s 0%nat [] sc p sc' Hsc E).
  - exact (@rewrite_elems_keeps elems IH 0%nat [] sc p sc' Hsc E).
  - exact (@rewrite_props_keeps props IH [] sc p sc' Hsc E).
Qed.

End AccumulatorInvariant.

(** Every predicate [rewrite] collects is a [json_array_length] predicate
    on the [data] column. *)
Lemma rewrite_collects_length_wheres (v : json) (p : object) (S : list sq) :
  rewrite v [] = Ok (p, S) -> Forall (fun c => is_length_where c = true) S.
Proof.
  intros E.
  refine (@rewrite_keeps (Forall (fun c => is_length_where c = true)) _
            v [] p S (Forall_nil _) E).
  intros sc key logic H. apply Forall_app. split; [exact H|].
  constructor; [reflexivity | constructor].
Qed.

(** X2: the descriptor [toSequelize] returns is [{}], or [{where: P}] with
    a non-empty mapping [P], or [{where: [...]}] with a non-empty sequence
    that starts with the standalone predicates, each on the length of a
    JSON array of the [data] column, followed by at most one mapping,
    which then has a string key. *)
Theorem X2_descriptor_shape (v : json) (d : sq) :
  toSequelize v = Ok d ->
  d = SObj []
  \/ (exists p, p <> [] /\ d = where_ (SObj p))
  \/ (exists S tail,
        S <> []
        /\ Forall (fun c => is_length_where c = true) S
        /\ (tail = [] \/ exists p, keys p <> [] /\ tail = [SObj p])
        /\ d = where_ (SArr (S ++ tail))).
Proof.
  intros E.
  destruct (rewrite v []) as [[p S]|e] eqn:Er.
  - rewrite (toSequelize_assembly _ Er) in E. inversion E as [Ed]. clear E.
    pose proof (rewrite_collects_length_wheres _ Er) as HS.
    destruct S as [|c S].
    + destruct p as [|kv p]; [now left|].
      right; left. exists (kv :: p). split; [discriminate | reflexivity].
    + right; right.
      destruct (keys p) as [|k ks] eqn:Ek.
      * exists (c :: S), []. rewrite app_nil_r.
        repeat split; trivial; [discriminate | now left].
      * exists (c :: S), [SObj p].
        repeat split; trivial; [discriminate|].
        right. exists p. split; [rewrite Ek; discriminate | reflexivity].
  - unfold toSequelize in E. rewrite Er in E. discriminate E.
Qed.

Lemma obj_set_nonempty (r : object) (k : key) (v : sq) : obj_set r k v <> [].
Proof.
  destruct r as [|[k' v'] r]; simpl; [discriminate|].
  destruct (key_eqb k' k); discriminate.
Qed.

(** A step of the loop that succeeds leaves a property in the mapping or
    a predicate in the accumulator. *)
Lemma rewrite_body_nonempty (f : json -> list sq -> result state)
  (k : string) (v : json) (st : state) (r' : object) (sc' : list sq) :
  rewrite_body f k v st = Ok (r', sc') -> r' <> [] \/ sc' <> [].
Proof.
  destruct st as [r sc]. unfold rewrite_body.
  destruct (getSequelizeOperator k) as [newKey|e]; [|discriminate].
  cbn [bind].
  destruct v as [| |b|n|s|us|props];
    try (intros E; inversion E; left; apply obj_set_nonempty).
  - destruct (map_rewrite f us sc) as [[rs a]|e]; [|discriminate].
    intros E; inversion E; left; apply obj_set_nonempty.
  - destruct (lookahead props) as [logic|].
    + intros E; inversion E. right. now destruct sc.
    + destruct (f (JObj props) sc) as [[r1 a]|e]; [|discriminate].
      intros E; inversion E; left; apply obj_set_nonempty.
Qed.

Lemma rewrite_props_nonempty (props : list (string * json)) :
  props <> [] ->
  forall st r' sc',
  rewrite_props props st = Ok (r', sc') -> r' <> [] \/ sc' <> [].
Proof.
  induction props as [|[k v] props IH]; [congruence|].
  intros _ st r' sc' E. rewrite rewrite_props_cons in E.
  destruct (rewrite_body rewrite k v st) as [[r1 a]|e] eqn:Eb;
    [|discriminate E].
  cbn [bind] in E.
  destruct props as [|kv props].
  - inversion E; subst. exact (rewrite_body_nonempty _ _ _ _ Eb).
  - apply (IH ltac:(discriminate) (r1, a) r' sc' E).
Qed.

(** X3: among the plain objects only the empty filter is translated to
    the empty descriptor [{}]: a filter with a key gives a [where], or an
    error. *)
Theorem X3_empty_descriptor (props : list (string * json)) :
  toSequelize (JObj props) = Ok (SObj []) <-> props = [].
Proof.
  split; [|intros ->; reflexivity].
  intros E.
  destruct (rewrite (JObj props) []) as [[p S]|e] eqn:Er.
  - rewrite (toSequelize_assembly _ Er) in E.
    destruct props as [|kv props]; [reflexivity | exfalso].
    rewrite rewrite_unfold in Er.
    destruct (@rewrite_props_nonempty (kv :: props) ltac:(discriminate)
                _ _ _ Er) as [H|H].
    + destruct S; [destruct p; [congruence | discriminate E]|].
      destruct (keys p); discriminate E.
    + destruct S; [congruence|]. destruct (keys p); discriminate E.
  - unfold toSequelize in E. rewrite Er in E. discriminate E.
Qed.

Lemma getSequelizeOperator_defined (k : string) :
  k <> "$size" -> exists newKey, getSequelizeOperator k = Ok newKey.
Proof.
  intros Hk.
  destruct (in_dec string_dec k switch_keywords) as [Hin|Hout].
  - simpl in Hin.
    repeat (destruct Hin as [<-|Hin];
            [try (eexists; reflexivity); congruence|]).
    contradiction.
  - eexists. now apply getSequelizeOperator_other.
Qed.

(** X4: the key rewrite is injective: two different keys of a filter are
    never rewritten to the same key, so no property of the rewritten
    mapping overwrites another. *)
Theorem X4_key_rewrite_injective (a b : string) (k : key) :
  getSequelizeOperator a = Ok k ->
  getSequelizeOperator b = Ok k ->
  a = b.
Proof.
  intros Ea Eb.
  destruct (in_dec string_dec a switch_keywords) as [Ha|Ha];
    destruct (in_dec string_dec b switch_keywords) as [Hb|Hb].
  - simpl in Ha, Hb.
    repeat (destruct Ha as [<-|Ha]; [|]); try contradiction;
      (repeat (destruct Hb as [<-|Hb]; [|])); try contradiction;
      try reflexivity; try discriminate Ea; try discriminate Eb;
      rewrite <- Eb in Ea; discriminate Ea.
  - rewrite (getSequelizeOperator_other Hb) in Eb. rewrite <- Eb in Ea.
    destruct (@getSequelizeOperator_switch a Ha _ Ea).
  - rewrite (getSequelizeOperator_other Ha) in Ea. rewrite <- Ea in Eb.
    destruct (@getSequelizeOperator_switch b Hb _ Eb).
  - rewrite (getSequelizeOperator_other Ha) in Ea.
    rewrite (getSequelizeOperator_other Hb) in Eb.
    rewrite <- Eb in Ea. inversion Ea as [E]. now apply data_key_inj.
Qed.

Lemma X4_key_rewrite_injective_witness :
  getSequelizeOperator "a" = Ok (KStr "data.a")
  /\ getSequelizeOperator "a" = Ok (KStr "data.a")
  /\ "a" = "a".
Proof.
  assert (getSequelizeOperator "a" = Ok (KStr "data.a")) as E by reflexivity.
  exact (conj E (conj E (@X4_key_rewrite_injective "a" "a" _ E E))).
Defined.

Lemma lookahead_In (props : list (string * json)) (logic : json) :
  NoDup (map fst props) -> In ("$size", logic) props ->
  lookahead props = Some logic.
Proof.
  induction props as [|[k v] props IH]; intros Hnd Hin; [contradiction|].
  inversion Hnd as [|? ? Hk Hnd']; subst.
  cbn [lookahead existsb].
  destruct (String.eqb_spec k "$size") as [->|Hne].
  - destruct Hin as [E|Hin]; [now inversion E|].
    exfalso. apply Hk. now apply (in_map fst _ _ Hin).
  - destruct Hin as [E|Hin]; [inversion E; congruence|]. now apply IH.
Qed.

(** X5: a nested mapping with a [$size] key is not rewritten at all: the
    filter [{f: {..., $size: n, ...}}] gives the single standalone
    predicate on the length of the array at the path of the key [f] as
    written, whatever the other keys of the nested mapping are. *)
Theorem X5_size_diverts_whole_mapping (f : string)
  (props : list (string * json)) (logic : json) :
  f <> "$size" ->
  NoDup (map fst props) ->
  In ("$size", logic) props ->
  toSequelize (JObj [(f, JObj props)])
  = Ok (where_ (SArr [SWhere "json_array_length" "data" (json_path f) logic])).
Proof.
  intros Hf Hnd Hin.
  destruct (getSequelizeOperator_defined Hf) as [newKey Ek].
  apply (@toSequelize_assembly _ []
           [SWhere "json_array_length" "data" (json_path f) logic]).
  rewrite rewrite_unfold, rewrite_props_cons. unfold rewrite_body.
  rewrite Ek, (@lookahead_In props logic Hnd Hin). reflexivity.
Qed.

Lemma X5_size_diverts_whole_mapping_witness :
  let props := [("$gt", JNum 1); ("$size", JNum 3); ("$eqq", JNull)] in
  "id" <> "$size" /\ NoDup (map fst props) /\ In ("$size", JNum 3) props
  /\ toSequelize (JObj [("id", JObj props)])
     = Ok (where_ (SArr [SWhere "json_array_length" "data" (json_path "id")
                           (JNum 3)])).
Proof.
  intros props.
  assert ("id" <> "$size") as Hf by discriminate.
  assert (NoDup (map fst props)) as Hnd
    by (repeat constructor; simpl; intuition discriminate).
  assert (In ("$size", JNum 3) props) as Hin by (simpl; tauto).
  exact (conj Hf (conj Hnd (conj Hin
    (@X5_size_diverts_whole_mapping "id" props (JNum 3) Hf Hnd Hin)))).
Defined.

Lemma rewrite_props_size_key (props : list (string * json)) :
  In "$size" (map fst props) ->
  forall st, exists e, rewrite_props props st = Err e.
Proof.
  induction props as [|[k v] props IH]; intros Hin st; [contradiction|].
  rewrite rewrite_props_cons.
  destruct Hin as [E|Hin].
  - simpl in E. subst k. destruct st as [r sc]. eexists. reflexivity.
  - destruct (rewrite_body rewrite k v st) as [st1|e].
    + exact (IH Hin st1).
    + now exists e.
Qed.

(** X6: a filter with [$size] among its own keys is never translated:
    [toSequelize] throws. *)
Theorem X6_size_key_refused (props : list (string * json)) :
  In "$size" (map fst props) ->
  exists e, toSequelize (JObj props) = Err e.
Proof.
  intros Hin. unfold toSequelize. rewrite rewrite_unfold.
  destruct (@rewrite_props_size_key props Hin ([], [])) as [e ->].
  now exists e.
Qed.

Lemma X6_size_key_refused_witness :
  In "$size" (map fst [("a", JNum 1); ("$size", JNum 2)])
  /\ exists e, toSequelize (JObj [("a", JNum 1); ("$size", JNum 2)]) = Err e.
Proof.
  assert (In "$size" (map fst [("a", JNum 1); ("$size", JNum 2)])) as H
    by (simpl; tauto).
  exact (conj H (@X6_size_key_refused _ H)).
Defined.

Lemma X2_descriptor_shape_witness :
  let v := JObj [("a", JObj [("$size", JNum 4)]); ("b", JNum 3)] in
  let W := SWhere "json_array_length" "data" (json_path "a") (JNum 4) in
  let P := [(KStr "data.b", SVal (JNum 3))] in
  toSequelize v = Ok (where_ (SArr [W; SObj P]))
  /\ (where_ (SArr [W; SObj P]) = SObj []
      \/ (exists p, p <> [] /\ where_ (SArr [W; SObj P]) = where_ (SObj p))
      \/ (exists S tail,
            S <> []
            /\ Forall (fun c => is_length_where c = true) S
            /\ (tail = [] \/ exists p, keys p <> [] /\ tail = [SObj p])
            /\ where_ (SArr [W; SObj P]) = where_ (SArr (S ++ tail)))).
Proof.
  intros v W P.
  assert (toSequelize v = Ok (where_ (SArr [W; SObj P]))) as E by reflexivity.
  exact (conj E (@X2_descriptor_shape v _ E)).
Defined.

(** X7: a field compared through one of the ten connector keywords with a
    leaf operand is translated to the mapping of the rewritten field to
    the one-entry mapping of the connector's symbol to the operand,
    [{where: {<key>: {[Op.x]: v}}}]. *)
Theorem X7_connector_translation (f op : string) (sym : Op) (v : json) :
  ~ In f switch_keywords ->
  In (op, sym) connector_symbols ->
  is_leaf v = true ->
  toSequelize (JObj [(f, JObj [(op, v)])])
  = Ok (where_ (SObj [(KStr (data_key f), SObj [(KSym sym, SVal v)])])).
Proof.
  intros Hf Hop Hv.
  apply (@toSequelize_assembly _
           [(KStr (data_key f), SObj [(KSym sym, SVal v)])] []).
  rewrite rewrite_unfold, rewrite_props_cons.
  unfold rewrite_body at 1.
  rewrite (getSequelizeOperator_other Hf).
  simpl in Hop.
  repeat (destruct Hop as [Hop|Hop];
          [inversion Hop; subst op sym;
           destruct v; try discriminate Hv; reflexivity|]).
  contradiction.
Qed.

Lemma X7_connector_translation_witness :
  ~ In "a" switch_keywords /\ In ("$contains", Op_substring) connector_symbols
  /\ is_leaf (JNum 4) = true
  /\ toSequelize (JObj [("a", JObj [("$contains", JNum 4)])])
     = Ok (where_ (SObj [(KStr "data.a",
                          SObj [(KSym Op_substring, SVal (JNum 4))])])).
Proof.
  assert (~ In "a" switch_keywords) as Hf by (simpl; intuition discriminate).
  assert (In ("$contains", Op_substring) connector_symbols) as Hop
    by (simpl; tauto).
  assert (is_leaf (JNum 4) = true) as Hv by reflexivity.
  exact (conj Hf (conj Hop (conj Hv
    (@X7_connector_translation "a" "$contains" Op_substring (JNum 4)
       Hf Hop Hv)))).
Defined.

Lemma map_rewrite_attributes (us : list json) (sc : list sq) :
  Forall attribute_object_value us ->
  map_rewrite rewrite us sc = Ok (map renamed us, sc).
Proof.
  induction 1 as [|u us [Hobj Htree] _ IH]; [reflexivity|].
  change (map_rewrite rewrite (u :: us) sc)
    with ('(r, specialCases) <- rewrite u sc ;;
          '(rs, specialCases) <- map_rewrite rewrite us specialCases ;;
          Ok (SObj r :: rs, specialCases)).
  destruct u as [| |b|n|s|elems|props]; try discriminate Hobj.
  rewrite (@rewrite_attribute_tree (JObj props) Htree props eq_refl sc).
  cbn [bind]. rewrite IH. reflexivity.
Qed.

(** X8: [$and] and [$or] over a sequence of filters made of attributes
    are translated to the connector's symbol over the sequence of the
    renamed filters, in order: [{where: {[Op.or]: [...]}}]. *)
Theorem X8_junction_translation (us : list json) :
  Forall attribute_object_value us ->
  toSequelize (JObj [("$and", JArr us)])
  = Ok (where_ (SObj [(KSym Op_and, SArr (map renamed us))]))
  /\ toSequelize (JObj [("$or", JArr us)])
     = Ok (where_ (SObj [(KSym Op_or, SArr (map renamed us))])).
Proof.
  intros Hus. split.
  - apply (@toSequelize_assembly _
             [(KSym Op_and, SArr (map renamed us))] []).
    rewrite rewrite_unfold, rewrite_props_cons. unfold rewrite_body.
    cbn [bind getSequelizeOperator String.eqb Ascii.eqb Bool.eqb].
    now rewrite (map_rewrite_attributes [] Hus).
  - apply (@toSequelize_assembly _
             [(KSym Op_or, SArr (map renamed us))] []).
    rewrite rewrite_unfold, rewrite_props_cons. unfold rewrite_body.
    cbn [bind getSequelizeOperator String.eqb Ascii.eqb Bool.eqb].
    now rewrite (map_rewrite_attributes [] Hus).
Qed.

Lemma X8_junction_translation_witness :
  let us := [JObj [("x", JStr "R")]; JObj [("id", JStr "S")]] in
  Forall attribute_object_value us
  /\ toSequelize (JObj [("$or", JArr us)])
     = Ok (where_ (SObj [(KSym Op_or,
             SArr [SObj [(KStr "data.x", SVal (JStr "R"))];
                   SObj [(KStr "id", SVal (JStr "S"))]])])).
Proof.
  intros us.
  assert (Forall attribute_object_value us) as Hus.
  { repeat (apply Forall_cons;
              [split; [reflexivity|];
               apply attribute_object;
               [repeat constructor; simpl; intuition discriminate
               |repeat (apply Forall_cons;
                        [split; [simpl; intuition discriminate
                                |now apply attribute_leaf]|]);
                apply Forall_nil]|]).
    apply Forall_nil. }
  exact (conj Hus (proj2 (@X8_junction_translation us Hus))).
Defined.

End TranslatorMore.

(* ================================================================== *)
(** ** More properties of the string renderer *)

Module ProjectionsMore.
Import Projections ProjectionsWords ProjectionsSpec.

(** X9: the third argument of [toSQL], the iteration level, has no effect
    on the result, be it a string or an error. *)
Theorem X9_level_ignored (q : node) (variable : string) (l l' : nat) :
  toSQL q variable l = toSQL q variable l'.
Proof. apply toSQL_level. Qed.

Lemma children_at_level (variable : string) (level : nat) (ps : list node)
  (rs : list string) :
  Forall2 (fun p r => toSQL p variable 0 = Ok r) ps rs ->
  Forall2 (fun p r => toSQL p variable level = Ok r) ps rs.
Proof.
  intros H. eapply Forall2_impl; [|exact H].
  intros p r E. now rewrite (toSQL_level p variable level 0).
Qed.

(** X10: the parts of a node that is not a container with an operator are
    rendered after the node's own text: where the node without children
    gives [s] and the children give [rs], the node gives [s] followed by
    the concatenation of [rs]. *)
Theorem X10_parts_appended (o f : option string) (opd : json)
  (ps : list node) (rs : list string) (s variable : string) (level : nat) :
  truthy o = None \/ truthy f <> None ->
  toSQL (Node o f opd (Some [])) variable level = Ok s ->
  Forall2 (fun p r => toSQL p variable 0 = Ok r) ps rs ->
  toSQL (Node o f opd (Some ps)) variable level = Ok (s ++ concatenation rs).
Proof.
  intros Hq Hs Hps.
  pose proof (append_parts_ok variable level
                (children_at_level variable (level + 1) Hps)) as Happ.
  rewrite toSQL_unfold in Hs |- *. cbv zeta in Hs |- *.
  assert (forall t, (if (0 <? List.length ps)%nat
                     then append_parts variable level ps t else Ok t)
                    = Ok (t ++ concatenation rs)) as Htrail.
  { intros t. destruct (0 <? List.length ps)%nat eqn:E; [apply Happ|].
    destruct Hps; [simpl; now rewrite append_empty_r | discriminate E]. }
  destruct (truthy o) as [op|].
  - destruct (truthy f) as [fl|]; [|destruct Hq; congruence].
    match type of Hs with bind ?X _ = _ => destruct X as [t|e] end;
      [|discriminate Hs].
    cbn [bind] in Hs |- *. simpl in Hs. inversion Hs; subst. apply Htrail.
  - simpl in Hs. inversion Hs; subst. apply Htrail.
Qed.

Lemma X10_parts_appended_witness :
  let ps := [predicate "y" "$gt" (JNum 1)] in
  (truthy (Some "$eq") = None \/ truthy (Some "x") <> None)
  /\ toSQL (Node (Some "$eq") (Some "x") (JNum 2) (Some [])) "n" 0
     = Ok "(n.x = 2)"
  /\ Forall2 (fun p r => toSQL p "n" 0 = Ok r) ps ["(n.y > 1)"]
  /\ toSQL (Node (Some "$eq") (Some "x") (JNum 2) (Some ps)) "n" 0
     = Ok "(n.x = 2)(n.y > 1)".
Proof.
  intros ps.
  assert (truthy (Some "$eq") = None \/ truthy (Some "x") <> None) as Hq
    by (right; discriminate).
  assert (toSQL (Node (Some "$eq") (Some "x") (JNum 2) (Some [])) "n" 0
          = Ok "(n.x = 2)") as Hs by reflexivity.
  assert (Forall2 (fun p r => toSQL p "n" 0 = Ok r) ps ["(n.y > 1)"]) as Hps
    by (repeat constructor).
  exact (conj Hq (conj Hs (conj Hps
    (@X10_parts_appended (Some "$eq") (Some "x") (JNum 2) ps ["(n.y > 1)"]
       "(n.x = 2)" "n" 0 Hq Hs Hps)))).
Defined.

Lemma symbol_table_truthy (op : string) :
  In op symbol_table ->
  truthy (Some op) = Some op /\ exists sym, getSqlOperator op = Ok sym.
Proof.
  intros H. split; [|now apply getSqlOperator_known].
  simpl in H. repeat (destruct H as [<-|H]; [reflexivity|]). contradiction.
Qed.

(** X11: a container with a single child is transparent: under a keyword
    of the symbol table, or without operator, it gives what the child
    gives, string or error; no connector is written. *)
Theorem X11_single_child (op : string) (f : option string) (opd : json)
  (q : node) (variable : string) (level : nat) :
  truthy f = None ->
  In op symbol_table ->
  toSQL (Node (Some op) f opd (Some [q])) variable level
    = toSQL q variable level
  /\ toSQL (Node None f opd (Some [q])) variable level
    = toSQL q variable level.
Proof.
  intros Hf Hop.
  destruct (@symbol_table_truthy op Hop) as [Ht [sym Hsym]].
  rewrite !toSQL_unfold with (ps := Some [q]). cbv zeta.
  rewrite Ht, Hf, Hsym. cbn [bind truthy push_parts append_parts List.length
                              Nat.ltb Nat.leb].
  rewrite (toSQL_level q variable 0 level),
          (toSQL_level q variable (level + 1) level).
  split; destruct (toSQL q variable level); reflexivity.
Qed.

Lemma X11_single_child_witness :
  truthy None = None /\ In "$and" symbol_table
  /\ toSQL (Node (Some "$and") None JUndefined
              (Some [predicate "x" "$lt" (JNum 45)])) "u" 0
     = Ok "(u.x < 45)"
  /\ toSQL (Node None None JUndefined
              (Some [predicate "x" "$lt" (JNum 45)])) "u" 0
     = Ok "(u.x < 45)".
Proof.
  assert (truthy None = None) as Hf by reflexivity.
  assert (In "$and" symbol_table) as Hop by (simpl; tauto).
  exact (conj Hf (conj Hop
    (@X11_single_child "$and" None JUndefined
       (predicate "x" "$lt" (JNum 45)) "u" 0 Hf Hop))).
Defined.

Lemma push_parts_err (variable : string) (ps1 ps2 : list node) (q : node)
  (rs : list string) (e : exn) :
  Forall2 (fun p r => toSQL p variable 0 = Ok r) ps1 rs ->
  toSQL q variable 0 = Err e ->
  forall coll, push_parts variable (ps1 ++ q :: ps2)%list coll = Err e.
Proof.
  intros H Hq. induction H as [|p r ps1 rs Hp _ IH]; intros coll; simpl.
  - now rewrite Hq.
  - rewrite Hp. simpl. apply IH.
Qed.

Lemma append_parts_err (variable : string) (level : nat)
  (ps1 ps2 : list node) (q : node) (rs : list string) (e : exn) :
  Forall2 (fun p r => toSQL p variable (level + 1) = Ok r) ps1 rs ->
  toSQL q variable (level + 1) = Err e ->
  forall s, append_parts variable level (ps1 ++ q :: ps2)%list s = Err e.
Proof.
  intros H Hq. induction H as [|p r ps1 rs Hp _ IH]; intros s; simpl.
  - now rewrite Hq.
  - rewrite Hp. simpl. apply IH.
Qed.

(** X12: an error in a child stops the rendering of a container: when
    the children before it render and it fails, the container, with a
    keyword of the symbol table or without operator, fails with the
    child's error, whatever follows. *)
Theorem X12_child_error_propagates (op : string) (f : option string)
  (opd : json) (ps1 ps2 : list node) (q : node) (rs : list string)
  (e : exn) (variable : string) (level : nat) :
  truthy f = None ->
  In op symbol_table ->
  Forall2 (fun p r => toSQL p variable 0 = Ok r) ps1 rs ->
  toSQL q variable 0 = Err e ->
  toSQL (Node (Some op) f opd (Some (ps1 ++ q :: ps2)%list)) variable level = Err e
  /\ toSQL (Node None f opd (Some (ps1 ++ q :: ps2)%list)) variable level = Err e.
Proof.
  intros Hf Hop Hps Hq.
  destruct (@symbol_table_truthy op Hop) as [Ht [sym Hsym]].
  rewrite !toSQL_unfold with (ps := Some (ps1 ++ q :: ps2)%list). cbv zeta.
  rewrite Ht, Hf, Hsym. cbn [bind truthy]. split.
  - now rewrite (@push_parts_err variable ps1 ps2 q rs e Hps Hq).
  - assert ((0 <? List.length (ps1 ++ q :: ps2)%list)%nat = true) as ->.
    { rewrite length_app. simpl. apply Nat.ltb_lt. lia. }
    apply (@append_parts_err variable level ps1 ps2 q rs e
             (children_at_level variable (level + 1) Hps)).
    now rewrite (toSQL_level q variable (level + 1) 0).
Qed.

Lemma X12_child_error_propagates_witness :
  let q := predicate "y" "$eqq" (JNum 1) in
  let ps1 := [predicate "x" "$lt" (JNum 2)] in
  truthy None = None /\ In "$or" symbol_table
  /\ Forall2 (fun p r => toSQL p "n" 0 = Ok r) ps1 ["(n.x < 2)"]
  /\ toSQL q "n" 0 = Err (Error "Unrecognized operator '$eqq'.")
  /\ toSQL (Node (Some "$or") None JUndefined (Some (ps1 ++ q :: ps1)%list)) "n" 0
     = Err (Error "Unrecognized operator '$eqq'.")
  /\ toSQL (Node None None JUndefined (Some (ps1 ++ q :: ps1)%list)) "n" 0
     = Err (Error "Unrecognized operator '$eqq'.").
Proof.
  intros q ps1.
  assert (truthy None = None) as Hf by reflexivity.
  assert (In "$or" symbol_table) as Hop by (simpl; tauto).
  assert (Forall2 (fun p r => toSQL p "n" 0 = Ok r) ps1 ["(n.x < 2)"]) as Hps
    by (repeat constructor).
  assert (toSQL q "n" 0 = Err (Error "Unrecognized operator '$eqq'.")) as Hq
    by reflexivity.
  exact (conj Hf (conj Hop (conj Hps (conj Hq
    (@X12_child_error_propagates "$or" None JUndefined ps1 ps1 q _ _ "n" 0
       Hf Hop Hps Hq))))).
Defined.

(** X13: a container with an operator checks the operator first: a
    keyword outside the symbol table is reported as unrecognized even when
    [parts] is missing; with a keyword of the table and no [parts] the
    call fails with a type error. *)
Theorem X13_container_errors (op : string) (f : option string) (opd : json)
  (ps : option (list node)) (variable : string) (level : nat) :
  op <> "" ->
  truthy f = None ->
  (~ In op symbol_table ->
   toSQL (Node (Some op) f opd ps) variable level
   = Err (Error ("Unrecognized operator '" ++ op ++ "'.")))
  /\ (In op symbol_table ->
      toSQL (Node (Some op) f opd None) variable level = Err TypeError).
Proof.
  intros Hop Hf.
  rewrite !toSQL_unfold. cbv zeta. rewrite (truthy_nonempty Hop), Hf.
  split; intros H.
  - now rewrite (getSqlOperator_unknown H).
  - destruct (@getSqlOperator_known op H) as [sym ->]. reflexivity.
Qed.

Lemma X13_container_errors_witness :
  "$nor" <> "" /\ truthy None = None /\ ~ In "$nor" symbol_table
  /\ toSQL (Node (Some "$nor") None JUndefined None) "n" 0
     = Err (Error "Unrecognized operator '$nor'.").
Proof.
  assert ("$nor" <> "") as Hop by discriminate.
  assert (truthy None = None) as Hf by reflexivity.
  assert (~ In "$nor" symbol_table) as H
    by (simpl; intuition discriminate).
  exact (conj Hop (conj Hf (conj H
    (proj1 (@X13_container_errors "$nor" None JUndefined None "n" 0 Hop Hf)
       H)))).
Defined.

(** X14: the operator of a predicate is not checked against its operand:
    each of the eight keywords of the symbol table renders, with a scalar
    operand as [(<variable>.<field> <symbol> <operand>)] and with an array
    operand as [(<variable>.<field> <symbol> (<elements>))]. *)
Theorem X14_any_symbol_any_operand (f op sym variable : string) (level : nat) :
  f <> "" ->
  In (op, sym) symbol_pairs ->
  (forall o lit,
     literal_text o = Some lit ->
     toSQL (predicate f op o) variable level
     = Ok ("(" ++ variable ++ "." ++ f ++ " " ++ sym ++ " " ++ lit ++ ")"))
  /\ (forall l texts,
        Forall2 (fun u t => literal_text u = Some t) l texts ->
        toSQL (predicate f op (JArr l)) variable level
        = Ok ("(" ++ variable ++ "." ++ f ++ " " ++ sym ++ " ("
                ++ sequence_text texts ++ "))")).
Proof.
  intros Hf Hop. split.
  - intros o lit Ho. unfold predicate. rewrite toSQL_unfold.
    rewrite (truthy_nonempty Hf).
    destruct (literal_text_getOperand _ Ho) as [-> ->].
    simpl in Hop.
    repeat (destruct Hop as [Hop|Hop]; [inversion Hop; subst; reflexivity|]).
    contradiction.
  - intros l texts Hl. unfold predicate. rewrite toSQL_unfold.
    rewrite (truthy_nonempty Hf), (getOperand_array Hl).
    simpl in Hop.
    repeat (destruct Hop as [Hop|Hop]; [inversion Hop; subst; reflexivity|]).
    contradiction.
Qed.

Lemma X14_any_symbol_any_operand_witness :
  "x" <> "" /\ In ("$in", "in") symbol_pairs /\ In ("$gte", ">=") symbol_pairs
  /\ toSQL (predicate "x" "$in" (JNum 3)) "n" 0 = Ok "(n.x in 3)"
  /\ toSQL (predicate "x" "$gte" (JArr [JNum 1; JNum 2])) "n" 0
     = Ok "(n.x >= (1, 2))".
Proof.
  assert ("x" <> "") as Hf by discriminate.
  assert (In ("$in", "in") symbol_pairs) as H1 by (simpl; tauto).
  assert (In ("$gte", ">=") symbol_pairs) as H2 by (simpl; tauto).
  refine (conj Hf (conj H1 (conj H2 (conj _ _)))).
  - apply (proj1 (@X14_any_symbol_any_operand "x" "$in" "in" "n" 0 Hf H1)
             (JNum 3) "3" eq_refl).
  - apply (proj2 (@X14_any_symbol_any_operand "x" "$gte" ">=" "n" 0 Hf H2)
             [JNum 1; JNum 2] ["1"; "2"]).
    repeat constructor.
Defined.

Lemma join_app (sep : string) (a b : list string) :
  a <> [] -> b <> [] ->
  join sep (a ++ b)%list = join sep a ++ sep ++ join sep b.
Proof.
  intros Ha Hb. induction a as [|x a IH]; [congruence|].
  destruct a as [|y a].
  - destruct b; [congruence | reflexivity].
  - change (join sep ((x :: y :: a) ++ b)%list)
      with (x ++ sep ++ join sep ((y :: a) ++ b)%list).
    rewrite IH by discriminate.
    change (join sep (x :: y :: a)) with (x ++ sep ++ join sep (y :: a)).
    now rewrite !append_assoc.
Qed.

Lemma join_concat (sep : string) (tss : list (list string)) :
  Forall (fun ts => ts <> []) tss ->
  join sep (map (join sep) tss) = join sep (concat tss).
Proof.
  induction 1 as [|ts tss Hts Htss IH]; [reflexivity|].
  destruct tss as [|ts' tss].
  - simpl. now rewrite app_nil_r.
  - change (join sep (map (join sep) (ts :: ts' :: tss)))
      with (join sep ts ++ sep ++ join sep (map (join sep) (ts' :: tss))).
    rewrite IH.
    change (concat (ts :: ts' :: tss)) with (ts ++ concat (ts' :: tss))%list.
    apply eq_sym, join_app; [exact Hts|].
    inversion Htss as [|? ? Hts' _]; subst.
    destruct ts'; [congruence | simpl; discriminate].
Qed.

Lemma Forall2_concat {A B : Type} (R : A -> B -> Prop)
  (ls : list (list A)) (tss : list (list B)) :
  Forall2 (Forall2 R) ls tss -> Forall2 R (concat ls) (concat tss).
Proof.
  induction 1 as [|l ts ls tss H _ IH]; simpl; [constructor|].
  now apply Forall2_app.
Qed.

(** X15: [getOperand] loses the nesting of arrays: an array of non-empty
    arrays of scalars has the same text as the array of all their
    elements in order, the formatted elements joined with a comma and a
    space. *)
Theorem X15_nested_arrays_flattened (ls : list (list json))
  (tss : list (list string)) :
  Forall2 (fun l ts => l <> []
                       /\ Forall2 (fun u t => literal_text u = Some t) l ts)
    ls tss ->
  getOperand (JArr (map JArr ls)) = Some (sequence_text (concat tss))
  /\ getOperand (JArr (concat ls)) = Some (sequence_text (concat tss)).
Proof.
  intros H. split.
  - assert (map (fun u => match getOperand u with
                          | Some s => s
                          | None => ""
                          end) (map JArr ls) = map (join ", ") tss) as E.
    { induction H as [|l ts ls tss [Hl Hlts] _ IH]; [reflexivity|].
      cbn [map]. rewrite IH, (getOperand_array Hlts). f_equal.
      inversion Hlts; subst; [congruence | reflexivity]. }
    assert (Forall (fun ts => ts <> []) tss) as Hne.
    { clear E. induction H as [|l ts ls tss [Hl Hlts] _ IH];
        [apply Forall_nil | apply Forall_cons; [|exact IH]].
      inversion Hlts; subst; [congruence | discriminate]. }
    destruct H as [|l ts ls tss [Hl Hlts] H]; [reflexivity|].
    change (getOperand (JArr (map JArr (l :: ls))))
      with (Some (join ", "
              (map (fun u => match getOperand u with
                             | Some s => s
                             | None => ""
                             end) (map JArr (l :: ls))))).
    rewrite E, (join_concat _ Hne). f_equal.
    simpl concat. inversion Hlts; subst; [congruence | reflexivity].
  - apply getOperand_array, Forall2_concat.
    eapply Forall2_impl; [|exact H]. now intros l ts [_ Hl].
Qed.

Lemma X15_nested_arrays_flattened_witness :
  let ls := [[JNum 1; JNum 2]; [JStr "a"]] in
  Forall2 (fun l ts => l <> []
                       /\ Forall2 (fun u t => literal_text u = Some t) l ts)
    ls [["1"; "2"]; ["'a'"]]
  /\ getOperand (JArr (map JArr ls)) = Some "1, 2, 'a'"
  /\ getOperand (JArr (concat ls)) = Some "1, 2, 'a'".
Proof.
  intros ls.
  assert (Forall2 (fun l ts => l <> []
                     /\ Forall2 (fun u t => literal_text u = Some t) l ts)
            ls [["1"; "2"]; ["'a'"]]) as H.
  { repeat (apply Forall2_cons; [split; [discriminate | repeat constructor]|]).
    apply Forall2_nil. }
  exact (conj H (@X15_nested_arrays_flattened ls _ H)).
Defined.

(** X16: an operand that is [null], [undefined] or an object has no text:
    a comparison on it is rendered with the word [undefined] in the place
    of the operand. *)
Theorem X16_missing_operand (f op sym variable : string) (o : json)
  (level : nat) :
  f <> "" ->
  In (op, sym) comparison_symbols ->
  unformatted o = true ->
  toSQL (predicate f op o) variable level
  = Ok ("(" ++ variable ++ "." ++ f ++ " " ++ sym ++ " undefined)").
Proof.
  intros Hf Hop Ho. unfold predicate. rewrite toSQL_unfold.
  rewrite (truthy_nonempty Hf).
  simpl in Hop.
  repeat (destruct Hop as [Hop|Hop];
          [inversion Hop; subst;
           destruct o; try discriminate Ho; reflexivity|]).
  contradiction.
Qed.

Lemma X16_missing_operand_witness :
  "x" <> "" /\ In ("$eq", "=") comparison_symbols /\ unformatted JNull = true
  /\ toSQL (predicate "x" "$eq" JNull) "n" 0 = Ok "(n.x = undefined)".
Proof.
  assert ("x" <> "") as Hf by discriminate.
  assert (In ("$eq", "=") comparison_symbols) as Hop by (simpl; tauto).
  assert (unformatted JNull = true) as Ho by reflexivity.
  exact (conj Hf (conj Hop (conj Ho
    (@X16_missing_operand "x" "$eq" "=" "n" JNull 0 Hf Hop Ho)))).
Defined.

End ProjectionsMore.

(* ================================================================== *)
(** ** Properties of the record conversions *)

Unset Implicit Arguments.

Module UtilsSpec.
Import Utils.

(** *** Splitting and joining labels *)

Lemma split_on_comma_free (s : string) :
  comma_free s = true -> split_on "," s = [s].
Proof.
  induction s as [|c s IH]; [reflexivity|].
  cbn [comma_free split_on]. intros H. apply andb_prop in H as [Hc Hs].
  apply negb_true_iff in Hc. rewrite Hc, (IH Hs). reflexivity.
Qed.

Lemma split_on_label (l t : string) :
  comma_free l = true ->
  split_on "," (l ++ "," ++ t) = l :: split_on "," t.
Proof.
  induction l as [|c l IH]; [reflexivity|].
  cbn [comma_free]. intros H. apply andb_prop in H as [Hc Hl].
  apply negb_true_iff in Hc.
  change (String c l ++ "," ++ t) with (String c (l ++ "," ++ t)).
  cbn [split_on]. rewrite Hc, (IH Hl). reflexivity.
Qed.

Lemma split_on_join (ls : list string) :
  ls <> [] ->
  Forall (fun l => comma_free l = true) ls ->
  split_on "," (join "," ls) = ls.
Proof.
  intros Hne H. induction H as [|l ls Hl Hls IH]; [congruence|].
  destruct ls as [|l' ls].
  - now apply split_on_comma_free.
  - change (join "," (l :: l' :: ls)) with (l ++ "," ++ join "," (l' :: ls)).
    rewrite (split_on_label _ _ Hl), IH; [reflexivity | discriminate].
Qed.

Lemma split_on_pieces (s : string) :
  Forall (fun piece => comma_free piece = true) (split_on "," s)
  /\ split_on "," s <> [].
Proof.
  induction s as [|c s [IH Hne]]; [split; [repeat constructor | discriminate]|].
  cbn [split_on].
  destruct (Ascii.eqb c ",") eqn:Hc.
  - split; [constructor; [reflexivity | exact IH] | discriminate].
  - destruct (split_on "," s) as [|piece pieces]; [congruence|].
    inversion IH as [|? ? Hp Hps]; subst.
    split; [|discriminate].
    constructor; [|exact Hps]. cbn [comma_free]. now rewrite Hc, Hp.
Qed.

Lemma storable_parts (l : string) :
  storable_label l = true -> comma_free l = true /\ not_blank l = true.
Proof. unfold storable_label. intros H. now apply andb_prop in H. Qed.

(** The labels written to the record are read back as they were. *)
Lemma labels_read_back (ls : list string) :
  Forall (fun l => storable_label l = true) ls ->
  filter not_blank (split_on "," (join "," ls)) = ls.
Proof.
  intros H. destruct ls as [|l ls]; [reflexivity|].
  rewrite split_on_join; [|discriminate|].
  - apply forallb_filter_id. apply forallb_forall. intros x Hx.
    rewrite Forall_forall in H. now destruct (storable_parts _ (H x Hx)).
  - eapply Forall_impl; [|exact H].
    intros x Hx. now destruct (storable_parts _ Hx).
Qed.

Lemma join_text_strings (ls : list string) :
  join_texts (map JStr ls) = Ok ls.
Proof. induction ls as [|l ls IH]; simpl; [reflexivity | now rewrite IH]. Qed.

Lemma or_else_string (t : string) : or_else (JStr t) (JStr "") = JStr t.
Proof. unfold or_else. simpl. now destruct (String.eqb_spec t ""); subst. Qed.

(** *** Objects as finite maps *)

Lemma lookup_set (props : list (string * json)) (k k' : string) (v : json) :
  lookup k (set props k' v) = if k' =? k then Some v else lookup k props.
Proof.
  induction props as [|[k0 v0] props IH]; simpl.
  - reflexivity.
  - destruct (String.eqb_spec k0 k') as [->|Hne]; simpl.
    + destruct (String.eqb_spec k' k); reflexivity.
    + rewrite IH.
      destruct (String.eqb_spec k0 k) as [->|_]; [|reflexivity].
      destruct (String.eqb_spec k' k); [congruence | reflexivity].
Qed.

Lemma lookup_remove (props : list (string * json)) (k k' : string) :
  lookup k (remove k' props) = if k' =? k then None else lookup k props.
Proof.
  induction props as [|[k0 v0] props IH]; simpl.
  - now destruct (k' =? k).
  - destruct (String.eqb_spec k0 k') as [->|Hne]; simpl.
    + rewrite IH. destruct (String.eqb_spec k' k); reflexivity.
    + rewrite IH.
      destruct (String.eqb_spec k0 k) as [->|_]; [|reflexivity].
      destruct (String.eqb_spec k' k); [congruence | reflexivity].
Qed.

Lemma lookup_None (props : list (string * json)) (k : string) :
  lookup k props = None <-> ~ In k (map fst props).
Proof.
  induction props as [|[k0 v0] props IH]; simpl; [tauto|].
  destruct (String.eqb_spec k0 k) as [->|Hne].
  - split; [discriminate | tauto].
  - rewrite IH. tauto.
Qed.

(** Assigning the properties of a source with distinct keys: a key of the
    source has the source's value, any other key the value it had. *)
Lemma lookup_fold_set (src object : list (string * json)) (k : string) :
  NoDup (map fst src) ->
  lookup k (fold_left (fun o kv => set o (fst kv) (snd kv)) src object)
  = match lookup k src with
    | Some v => Some v
    | None => lookup k object
    end.
Proof.
  revert object. induction src as [|[k0 v0] src IH]; intros object Hnd.
  - reflexivity.
  - inversion Hnd as [|? ? Hk0 Hnd']; subst.
    cbn [fold_left fst snd lookup]. rewrite (IH _ Hnd'), lookup_set.
    destruct (String.eqb_spec k0 k) as [->|_]; [|reflexivity].
    apply lookup_None in Hk0. now rewrite Hk0.
Qed.

Lemma lookup_fold_set_other (src object : list (string * json)) (k : string) :
  ~ In k (map fst src) ->
  lookup k (fold_left (fun o kv => set o (fst kv) (snd kv)) src object)
  = lookup k object.
Proof.
  revert object. induction src as [|[k0 v0] src IH]; intros object Hk.
  - reflexivity.
  - cbn [fold_left fst snd]. rewrite IH, lookup_set.
    + destruct (String.eqb_spec k0 k) as [->|_]; [|reflexivity].
      exfalso. apply Hk. now left.
    + intros H. apply Hk. now right.
Qed.

Lemma remove_NoDup (props : list (string * json)) (k : string) :
  NoDup (map fst props) -> NoDup (map fst (remove k props)).
Proof.
  induction props as [|[k0 v0] props IH]; intros Hnd; [constructor|].
  inversion Hnd as [|? ? Hk0 Hnd']; subst. cbn [remove].
  destruct (String.eqb_spec k0 k) as [->|Hne]; [now apply IH|].
  cbn [map fst]. constructor; [|now apply IH].
  apply lookup_None. rewrite lookup_remove.
  destruct (k =? k0); [reflexivity | now apply lookup_None].
Qed.

Lemma get_object (props : list (string * json)) (k : string) :
  get (JObj props) k = Ok (or_undefined (lookup k props)).
Proof. reflexivity. Qed.

Lemma labels_text_strings (props : list (string * json)) (ls : list string) :
  lookup "labels" props = Some (JArr (map JStr ls)) ->
  labels_text (JObj props) = Ok (join "," ls).
Proof.
  intros H. unfold labels_text. rewrite get_object, H.
  cbn [bind or_undefined or_else truthy array_join].
  now rewrite join_text_strings.
Qed.

Lemma labels_list_strings (record : list (string * json)) (ls : list string) :
  lookup "labels" record = Some (JStr (join "," ls)) ->
  Forall (fun l => storable_label l = true) ls ->
  labels_list (JObj record) = Ok (JArr (map JStr ls)).
Proof.
  intros H Hls. unfold labels_list. rewrite get_object, H.
  cbn [bind or_undefined]. rewrite or_else_string.
  cbn [string_split bind]. now rewrite (labels_read_back _ Hls).
Qed.

(** X17: a node written to a record and read back is the same node: with
    distinct keys and labels that are strings without comma and not
    blank, [dbRecordToNode (nodeToDbRecord n)] has under every key the
    value [n] has. *)
Theorem X17_node_round_trip (props : list (string * json))
  (ls : list string) :
  NoDup (map fst props) ->
  lookup "labels" props = Some (JArr (map JStr ls)) ->
  Forall (fun l => storable_label l = true) ls ->
  exists r n',
    nodeToDbRecord (JObj props) = Ok r
    /\ dbRecordToNode r = Ok n'
    /\ forall k, get n' k = get (JObj props) k.
Proof.
  intros Hnd Hlabels Hls.
  set (rest := remove "labels" (remove "id" props)).
  set (base := [("id", or_undefined (lookup "id" props));
                ("labels", JArr (map JStr ls))]).
  set (record := [("id", or_undefined (lookup "id" props));
                  ("labels", JStr (join "," ls)); ("data", JObj rest)]).
  exists (JObj record), (JObj (assign base (JObj rest))).
  split; [|split].
  - unfold nodeToDbRecord. rewrite get_object, (labels_text_strings _ _ Hlabels).
    reflexivity.
  - unfold dbRecordToNode.
    rewrite (labels_list_strings record ls eq_refl Hls). reflexivity.
  - intros k. rewrite !get_object. f_equal. unfold assign. cbn [truthy].
    rewrite lookup_fold_set
      by (unfold rest; now apply remove_NoDup, remove_NoDup).
    cbn [own_entries]. unfold rest. rewrite !lookup_remove.
    unfold base. cbn [lookup].
    destruct (String.eqb_spec "labels" k) as [<-|Hl].
    + now rewrite Hlabels.
    + destruct (String.eqb_spec "id" k) as [<-|Hi]; [reflexivity|].
      now destruct (lookup k props).
Qed.

Lemma X17_node_round_trip_witness :
  let props := [("name", JStr "Ada"); ("id", JStr "n1");
                ("labels", JArr (map JStr ["Person"; "Thing"]))] in
  NoDup (map fst props)
  /\ lookup "labels" props = Some (JArr (map JStr ["Person"; "Thing"]))
  /\ Forall (fun l => storable_label l = true) ["Person"; "Thing"]
  /\ exists r n',
       nodeToDbRecord (JObj props) = Ok r
       /\ dbRecordToNode r = Ok n'
       /\ forall k, get n' k = get (JObj props) k.
Proof.
  intros props.
  assert (NoDup (map fst props)) as Hnd
    by (repeat constructor; simpl; intuition discriminate).
  assert (lookup "labels" props = Some (JArr (map JStr ["Person"; "Thing"])))
    as Hl by reflexivity.
  assert (Forall (fun l => storable_label l = true) ["Person"; "Thing"])
    as Hls by (repeat constructor).
  exact (conj Hnd (conj Hl (conj Hls
    (X17_node_round_trip props ["Person"; "Thing"] Hnd Hl Hls)))).
Defined.

(** X18: an edge written to a record and read back is the same edge,
    under the same conditions: [dbRecordToEdge (edgeToDbRecord e)] has
    under every key the value [e] has. *)
Theorem X18_edge_round_trip (props : list (string * json))
  (ls : list string) :
  NoDup (map fst props) ->
  lookup "labels" props = Some (JArr (map JStr ls)) ->
  Forall (fun l => storable_label l = true) ls ->
  exists r e',
    edgeToDbRecord (JObj props) = Ok r
    /\ dbRecordToEdge r = Ok e'
    /\ forall k, get e' k = get (JObj props) k.
Proof.
  intros Hnd Hlabels Hls.
  set (rest := remove "targetId" (remove "sourceId"
                 (remove "labels" (remove "id" props)))).
  set (base := [("id", or_undefined (lookup "id" props));
                ("sourceId", or_undefined (lookup "sourceId" props));
                ("targetId", or_undefined (lookup "targetId" props));
                ("labels", JArr (map JStr ls))]).
  set (record := [("id", or_undefined (lookup "id" props));
                  ("labels", JStr (join "," ls));
                  ("sourceId", or_undefined (lookup "sourceId" props));
                  ("targetId", or_undefined (lookup "targetId" props));
                  ("data", JObj rest)]).
  exists (JObj record), (JObj (assign base (JObj rest))).
  split; [|split].
  - unfold edgeToDbRecord.
    rewrite !get_object, (labels_text_strings _ _ Hlabels). reflexivity.
  - unfold dbRecordToEdge.
    rewrite (labels_list_strings record ls eq_refl Hls). reflexivity.
  - intros k. rewrite !get_object. f_equal. unfold assign. cbn [truthy].
    rewrite lookup_fold_set
      by (unfold rest; now repeat apply remove_NoDup).
    cbn [own_entries]. unfold rest. rewrite !lookup_remove.
    unfold base. cbn [lookup].
    destruct (String.eqb_spec "targetId" k) as [<-|Ht]; [reflexivity|].
    destruct (String.eqb_spec "sourceId" k) as [<-|Hs]; [reflexivity|].
    destruct (String.eqb_spec "labels" k) as [<-|Hl];
      [now rewrite Hlabels|].
    destruct (String.eqb_spec "id" k) as [<-|Hi]; [reflexivity|].
    now destruct (lookup k props).
Qed.

Lemma X18_edge_round_trip_witness :
  let props := [("id", JStr "e1"); ("sourceId", JStr "a");
                ("targetId", JStr "b"); ("weight", JNum 3);
                ("labels", JArr (map JStr ["Knows"]))] in
  NoDup (map fst props)
  /\ lookup "labels" props = Some (JArr (map JStr ["Knows"]))
  /\ Forall (fun l => storable_label l = true) ["Knows"]
  /\ exists r e',
       edgeToDbRecord (JObj props) = Ok r
       /\ dbRecordToEdge r = Ok e'
       /\ forall k, get e' k = get (JObj props) k.
Proof.
  intros props.
  assert (NoDup (map fst props)) as Hnd
    by (repeat constructor; simpl; intuition discriminate).
  assert (lookup "labels" props = Some (JArr (map JStr ["Knows"])))
    as Hl by reflexivity.
  assert (Forall (fun l => storable_label l = true) ["Knows"])
    as Hls by (repeat constructor).
  exact (conj Hnd (conj Hl (conj Hls
    (X18_edge_round_trip props ["Knows"] Hnd Hl Hls)))).
Defined.

Lemma labels_list_storable (r labs : json) :
  labels_list r = Ok labs ->
  exists ls, labs = JArr (map JStr ls)
             /\ Forall (fun l => storable_label l = true) ls.
Proof.
  unfold labels_list. intros H.
  destruct (get r "labels") as [x|e]; [|discriminate H]. cbn [bind] in H.
  destruct (or_else x (JStr "")) as [| |b|n|s|l|ps]; try discriminate H.
  cbn [string_split bind] in H. inversion H; subst.
  exists (filter not_blank (split_on "," s)). split; [reflexivity|].
  apply Forall_forall. intros l Hl. apply filter_In in Hl as [Hin Hnb].
  destruct (split_on_pieces s) as [Hcf _]. rewrite Forall_forall in Hcf.
  unfold storable_label. now rewrite (Hcf l Hin), Hnb.
Qed.

(** X19: the labels [dbRecordToNode] reads from a record are storable
    labels: strings without comma and not blank, so that writing the node
    again and reading it gives the same labels; this when the [data]
    column carries no [labels] property of its own. *)
Theorem X19_labels_read_are_storable (r n' : json) :
  dbRecordToNode r = Ok n' ->
  (forall d, get r "data" = Ok d -> ~ In "labels" (map fst (own_entries d))) ->
  exists ls, get n' "labels" = Ok (JArr (map JStr ls))
             /\ Forall (fun l => storable_label l = true) ls.
Proof.
  unfold dbRecordToNode. intros H Hdata.
  destruct (get r "id") as [id|e]; [|discriminate H]. cbn [bind] in H.
  destruct (labels_list r) as [labs|e] eqn:El; [|discriminate H].
  cbn [bind] in H.
  destruct (get r "data") as [d|e]; [|discriminate H].
  cbn [bind] in H. inversion H; subst. clear H.
  destruct (labels_list_storable _ _ El) as [ls [-> Hls]].
  exists ls. split; [|exact Hls].
  rewrite get_object. unfold assign.
  destruct (truthy d); [|reflexivity].
  rewrite lookup_fold_set_other by (now apply Hdata). reflexivity.
Qed.

Lemma X19_labels_read_are_storable_witness :
  let r := JObj [("id", JStr "n1"); ("labels", JStr "A, ,B,");
                 ("data", JObj [("name", JStr "Ada")])] in
  let n' := JObj [("id", JStr "n1"); ("labels", JArr [JStr "A"; JStr "B"]);
                  ("name", JStr "Ada")] in
  dbRecordToNode r = Ok n'
  /\ (forall d, get r "data" = Ok d ->
                ~ In "labels" (map fst (own_entries d)))
  /\ exists ls, get n' "labels" = Ok (JArr (map JStr ls))
                /\ Forall (fun l => storable_label l = true) ls.
Proof.
  intros r n'.
  assert (dbRecordToNode r = Ok n') as E by reflexivity.
  assert (forall d, get r "data" = Ok d ->
                    ~ In "labels" (map fst (own_entries d))) as Hd.
  { intros d Hd. inversion Hd; subst. simpl. intuition discriminate. }
  exact (conj E (conj Hd (X19_labels_read_are_storable r n' E Hd))).
Defined.

(** X20: the properties of the [data] column win over the record's own
    columns: every key of [data] has in the node [dbRecordToNode] returns
    the value it has in [data], [id] and [labels] included. *)
Theorem X20_data_takes_precedence (r n' : json)
  (dprops : list (string * json)) (k : string) (v : json) :
  dbRecordToNode r = Ok n' ->
  get r "data" = Ok (JObj dprops) ->
  NoDup (map fst dprops) ->
  lookup k dprops = Some v ->
  get n' k = Ok v.
Proof.
  unfold dbRecordToNode. intros H Hdata Hnd Hk.
  destruct (get r "id") as [id|e]; [|discriminate H]. cbn [bind] in H.
  destruct (labels_list r) as [labs|e]; [|discriminate H].
  cbn [bind] in H. rewrite Hdata in H. cbn [bind] in H.
  inversion H; subst. clear H.
  rewrite get_object. unfold assign. cbn [truthy own_entries].
  now rewrite (lookup_fold_set _ _ _ Hnd), Hk.
Qed.

Lemma X20_data_takes_precedence_witness :
  let dprops := [("name", JStr "Ada"); ("id", JStr "other")] in
  let r := JObj [("id", JStr "n1"); ("labels", JStr "A");
                 ("data", JObj dprops)] in
  let n' := JObj [("id", JStr "other"); ("labels", JArr [JStr "A"]);
                  ("name", JStr "Ada")] in
  dbRecordToNode r = Ok n'
  /\ get r "data" = Ok (JObj dprops)
  /\ NoDup (map fst dprops)
  /\ lookup "id" dprops = Some (JStr "other")
  /\ get n' "id" = Ok (JStr "other").
Proof.
  intros dprops r n'.
  assert (dbRecordToNode r = Ok n') as E by reflexivity.
  assert (get r "data" = Ok (JObj dprops)) as Hd by reflexivity.
  assert (NoDup (map fst dprops)) as Hnd
    by (repeat constructor; simpl; intuition discriminate).
  assert (lookup "id" dprops = Some (JStr "other")) as Hk by reflexivity.
  exact (conj E (conj Hd (conj Hnd (conj Hk
    (X20_data_takes_precedence r n' dprops "id" (JStr "other")
       E Hd Hnd Hk))))).
Defined.

(** X21: the [data] column [nodeToDbRecord] fills holds the node without
    its [id] and [labels]: neither key is left in it, and every other key
    has the value it has in the node. *)
Theorem X21_data_column (props : list (string * json)) (r : json) :
  nodeToDbRecord (JObj props) = Ok r ->
  exists rest,
    get r "data" = Ok (JObj rest)
    /\ get (JObj rest) "id" = Ok JUndefined
    /\ get (JObj rest) "labels" = Ok JUndefined
    /\ forall k, k <> "id" -> k <> "labels" ->
                 get (JObj rest) k = get (JObj props) k.
Proof.
  unfold nodeToDbRecord. rewrite get_object. cbn [bind]. intros H.
  destruct (labels_text (JObj props)) as [text|e]; [|discriminate H].
  cbn [bind delete] in H. inversion H; subst. clear H.
  exists (remove "labels" (remove "id" props)).
  rewrite !get_object, !lookup_remove. cbn [lookup String.eqb Ascii.eqb Bool.eqb].
  repeat split.
  intros k Hid Hlabels. rewrite get_object, !lookup_remove.
  apply not_eq_sym, String.eqb_neq in Hid, Hlabels.
  now rewrite Hid, Hlabels.
Qed.

Lemma X21_data_column_witness :
  let props := [("id", JStr "n1"); ("name", JStr "Ada")] in
  let r := JObj [("id", JStr "n1"); ("labels", JStr "");
                 ("data", JObj [("name", JStr "Ada")])] in
  nodeToDbRecord (JObj props) = Ok r
  /\ exists rest,
       get r "data" = Ok (JObj rest)
       /\ get (JObj rest) "id" = Ok JUndefined
       /\ get (JObj rest) "labels" = Ok JUndefined
       /\ forall k, k <> "id" -> k <> "labels" ->
                    get (JObj rest) k = get (JObj props) k.
Proof.
  intros props r.
  assert (nodeToDbRecord (JObj props) = Ok r) as E by reflexivity.
  exact (conj E (X21_data_column props r E)).
Defined.

Lemma toString_array (l : list json) :
  toString (JArr l) = (texts <- join_texts l ;; Ok (join "," texts)).
Proof. reflexivity. Qed.

Lemma join_texts_printable (l : list json) :
  Forall (fun u => text_or_type_error (toString u) (printable u)) l ->
  text_or_type_error (join_texts l) (forallb printable l).
Proof.
  induction 1 as [|u l Hu _ IH]; [reflexivity|].
  cbn [join_texts forallb].
  assert (text_or_type_error (join_text u) (printable u)) as Hj
    by (destruct u; try reflexivity; exact Hu).
  unfold text_or_type_error in *.
  destruct (join_text u) as [t|e]; cbn [bind].
  - rewrite Hj. destruct (join_texts l) as [ts|e]; exact IH.
  - destruct Hj as [-> ->]. now split.
Qed.

Lemma toString_printable (u : json) :
  text_or_type_error (toString u) (printable u).
Proof.
  induction u as [| |b|n|s|l IH|props _] using TranslatorSpec.json_induction;
    try reflexivity.
  - rewrite toString_array. cbn [printable].
    pose proof (join_texts_printable l IH) as H.
    unfold text_or_type_error in *.
    destruct (join_texts l) as [ts|e]; exact H.
  - cbn [toString printable].
    destruct (existsb (fun kv => fst kv =? "toString") props);
      [now split | reflexivity].
Qed.

(** X22: [nodeToDbRecord] fails on [null] and [undefined], on a value the
    [labels] of which is truthy and not an array, and on labels with an
    element that has no text (an object with an own property named
    [toString], at any depth of nested arrays); on nothing else, and
    always with a type error. *)
Theorem X22_node_record_failure (n : json) (e : exn) :
  nodeToDbRecord n = Err e <->
  e = TypeError
  /\ (n = JNull \/ n = JUndefined
      \/ exists v, get n "labels" = Ok v /\ truthy v = true
                   /\ (isArray v = false \/ printable v = false)).
Proof.
  unfold nodeToDbRecord, labels_text. split.
  - intros H.
    destruct (get n "id") as [id|e0] eqn:Eid.
    + cbn [bind] in H.
      destruct (get n "labels") as [v|e1] eqn:El;
        [|destruct n; discriminate].
      cbn [bind] in H. unfold or_else in H.
      destruct (truthy v) eqn:Et; [|discriminate H].
      destruct v as [| |b|z|s|l|ps]; try discriminate Et;
        cbn [array_join bind] in H;
        try (inversion H; (split; [reflexivity|]); right; right;
             eexists; repeat split; try eassumption; now left).
      * pose proof (join_texts_printable l
                      (proj2 (Forall_forall _ l)
                         (fun u _ => toString_printable u))) as Hl.
        unfold text_or_type_error in Hl.
        destruct (join_texts l) as [ts|e1]; [discriminate H|].
        cbn [bind] in H. destruct Hl as [Hp ->]. inversion H; subst.
        split; [reflexivity|]. right; right.
        exists (JArr l). repeat split; [now right].
    + cbn [bind] in H. inversion H; subst.
      destruct n; try discriminate Eid; inversion Eid; split; auto.
  - intros [-> [->|[->|[v (Hv & Ht & Ha)]]]]; try reflexivity.
    destruct (get n "id") as [id|e0] eqn:Eid;
      [|destruct n; try discriminate Eid; discriminate Hv].
    cbn [bind]. rewrite Hv. cbn [bind]. unfold or_else. rewrite Ht.
    destruct v as [| |b|z|s|l|ps]; try reflexivity;
      destruct Ha as [Ha|Ha]; try discriminate Ha.
    cbn [array_join printable] in *.
    pose proof (join_texts_printable l
                  (proj2 (Forall_forall _ l)
                     (fun u _ => toString_printable u))) as Hl.
    unfold text_or_type_error in Hl.
    destruct (join_texts l) as [ts|e1]; [congruence|].
    now destruct Hl as [_ ->].
Qed.

(** A label that is an object with a property [toString] of its own. *)
Example record_of_unprintable_label :
  nodeToDbRecord (JObj [("id", JNum 1);
                        ("labels", JArr [JObj [("toString", JNum 1)]])])
  = Err TypeError.
Proof. reflexivity. Qed.

(** X23: the node the adapter returns for node specifications:
    [dbRecordToNode (nodeSpecsToRecord specs)], for specifications with
    storable labels and an object as data, has the properties of the
    data, and under [id] and [labels], where the data has no such key,
    the identifier and the labels of the specifications. *)
Theorem X23_specs_to_node (specs dprops : list (string * json))
  (ls : list string) :
  lookup "labels" specs = Some (JArr (map JStr ls)) ->
  Forall (fun l => storable_label l = true) ls ->
  lookup "data" specs = Some (JObj dprops) ->
  NoDup (map fst dprops) ->
  exists r n',
    nodeSpecsToRecord (JObj specs) = Ok r
    /\ dbRecordToNode r = Ok n'
    /\ forall k,
         get n' k
         = Ok match lookup k dprops with
              | Some v => v
              | None =>
                  if k =? "id" then or_undefined (lookup "id" specs)
                  else if k =? "labels" then JArr (map JStr ls)
                  else JUndefined
              end.
Proof.
  intros Hlabels Hls Hdata Hnd.
  set (base := [("id", or_undefined (lookup "id" specs));
                ("labels", JArr (map JStr ls))]).
  set (record := [("id", or_undefined (lookup "id" specs));
                  ("labels", JStr (join "," ls)); ("data", JObj dprops)]).
  exists (JObj record), (JObj (assign base (JObj dprops))).
  split; [|split].
  - unfold nodeSpecsToRecord.
    rewrite !get_object, (labels_text_strings _ _ Hlabels), Hdata.
    reflexivity.
  - unfold dbRecordToNode.
    rewrite (labels_list_strings record ls eq_refl Hls). reflexivity.
  - intros k. rewrite get_object. f_equal. unfold assign.
    cbn [truthy own_entries]. rewrite (lookup_fold_set _ _ _ Hnd).
    destruct (lookup k dprops); [reflexivity|].
    unfold base. cbn [lookup]. rewrite (String.eqb_sym "id" k).
    destruct (k =? "id"); [reflexivity|].
    rewrite (String.eqb_sym "labels" k).
    now destruct (k =? "labels").
Qed.

Lemma X23_specs_to_node_witness :
  let dprops := [("name", JStr "Ada")] in
  let specs := [("id", JStr "n1"); ("labels", JArr (map JStr ["Person"]));
                ("data", JObj dprops)] in
  lookup "labels" specs = Some (JArr (map JStr ["Person"]))
  /\ Forall (fun l => storable_label l = true) ["Person"]
  /\ lookup "data" specs = Some (JObj dprops)
  /\ NoDup (map fst dprops)
  /\ exists r n',
       nodeSpecsToRecord (JObj specs) = Ok r
       /\ dbRecordToNode r = Ok n'
       /\ forall k,
            get n' k
            = Ok match lookup k dprops with
                 | Some v => v
                 | None =>
                     if k =? "id" then or_undefined (lookup "id" specs)
                     else if k =? "labels" then JArr (map JStr ["Person"])
                     else JUndefined
                 end.
Proof.
  intros dprops specs.
  assert (lookup "labels" specs = Some (JArr (map JStr ["Person"]))) as Hl
    by reflexivity.
  assert (Forall (fun l => storable_label l = true) ["Person"]) as Hls
    by (repeat constructor).
  assert (lookup "data" specs = Some (JObj dprops)) as Hd by reflexivity.
  assert (NoDup (map fst dprops)) as Hnd
    by (repeat constructor; simpl; intuition discriminate).
  exact (conj Hl (conj Hls (conj Hd (conj Hnd
    (X23_specs_to_node specs dprops ["Person"] Hl Hls Hd Hnd))))).
Defined.

End UtilsSpec.

(* ================================================================== *)
(** ** The translator against its contract, on every filter *)

Module TranslatorContract.
Import Translator TranslatorWords TranslatorSpec TranslatorMore.

Lemma spec_key_other (k : string) :
  ~ In k switch_keywords -> spec_key k = KStr (data_key k).
Proof.
  intros H. unfold spec_key. cbn [find connector_symbols fst].
  repeat match goal with
    | |- context [String.eqb ?c k] =>
        destruct (String.eqb_spec c k) as [E|_];
        [exfalso; apply H; rewrite <- E; simpl; tauto|]
    end.
  reflexivity.
Qed.

(** The key rewrite of the code is the key of the contract, for every key
    but the length keyword, which it refuses. *)
Lemma getSequelizeOperator_spec_key (k : string) :
  k <> "$size" -> getSequelizeOperator k = Ok (spec_key k).
Proof.
  intros Hk.
  destruct (in_dec string_dec k switch_keywords) as [Hin|Hout].
  - simpl in Hin.
    repeat (destruct Hin as [<-|Hin]; [try reflexivity; congruence|]).
    contradiction.
  - now rewrite (getSequelizeOperator_other Hout), (spec_key_other k Hout).
Qed.

Lemma lookahead_length_operand (props : list (string * json)) :
  lookahead props = length_operand props.
Proof.
  unfold length_operand.
  induction props as [|[k v] props IH]; [reflexivity|].
  cbn [lookahead existsb find fst]. rewrite orb_false_r.
  destruct (k =? "$size"); [reflexivity | exact IH].
Qed.

(** [rewrite] meets the contract at the value [v]. *)
Lemma meets_bind_state (m : result state) (ok1 ok2 : bool) (p1 p2 : object)
  (sc a1 a2 : list sq) (k : state -> result state) :
  meets m ok1 p1 sc a1 ->
  meets (k (p1, (sc ++ a1)%list)) ok2 p2 (sc ++ a1)%list a2 ->
  meets (st <- m ;; k st) (ok1 && ok2) p2 sc (a1 ++ a2)%list.
Proof.
  unfold meets. destruct m as [st|e]; cbn [bind].
  - intros [-> ->]. destruct (k (p1, (sc ++ a1)%list)) as [st2|e2].
    + intros [-> ->]. split; [reflexivity | now rewrite app_assoc].
    + intros ->. reflexivity.
  - intros -> _. reflexivity.
Qed.

Lemma map_rewrite_meets (us : list json) :
  Forall (fun u => forall sc,
            meets (rewrite u sc) (accepted u) (translated u) sc (collected u))
    us ->
  forall sc,
    meets (map_rewrite rewrite us sc) (forallb accepted us)
      (map (fun x => SObj (translated x)) us) sc (flat_map collected us).
Proof.
  induction 1 as [|u us Hu _ IH]; intros sc.
  - simpl. split; [reflexivity | now rewrite app_nil_r].
  - change (map_rewrite rewrite (u :: us) sc)
      with ('(r, specialCases) <- rewrite u sc ;;
            '(rs, specialCases) <- map_rewrite rewrite us specialCases ;;
            Ok (SObj r :: rs, specialCases)).
    cbn [forallb map flat_map].
    specialize (Hu sc). unfold meets in Hu |- *.
    destruct (rewrite u sc) as [[r a]|e]; cbn [bind].
    + destruct Hu as [-> Hu]. inversion Hu; subst.
      specialize (IH (sc ++ collected u)%list). unfold meets in IH.
      destruct (map_rewrite rewrite us (sc ++ collected u)%list)
        as [[rs a']|e]; cbn [bind].
      * destruct IH as [-> IH]. inversion IH; subst.
        split; [reflexivity | now rewrite app_assoc].
      * now rewrite IH.
    + now rewrite Hu.
Qed.

(** One step of the loop meets the contract of the entry. *)
Lemma rewrite_body_meets (k : string) (u : json) :
  (forall sc,
     meets (rewrite u sc) (accepted u) (translated u) sc (collected u)) ->
  (forall us, u = JArr us ->
     Forall (fun x => forall sc,
               meets (rewrite x sc) (accepted x) (translated x) sc
                 (collected x)) us) ->
  forall r sc,
    meets (rewrite_body rewrite k u (r, sc)) (entry_accepted accepted k u)
      (entry_mapping translated k u r) sc (entry_predicates collected k u).
Proof.
  intros Hu Hus r sc. unfold rewrite_body, entry_accepted.
  destruct (String.eqb_spec k "$size") as [->|Hk]; [reflexivity|].
  rewrite (getSequelizeOperator_spec_key k Hk). cbn [bind negb andb].
  destruct u as [| |b|n|s|us|props];
    try (split; [reflexivity | cbn [entry_predicates]; now rewrite app_nil_r]).
  - pose proof (map_rewrite_meets us (Hus us eq_refl) sc) as H.
    unfold meets in H |- *.
    destruct (map_rewrite rewrite us sc) as [[rs a]|e]; cbn [bind].
    + destruct H as [-> H]. inversion H; subst. now split.
    + exact H.
  - cbn [entry_mapping entry_predicates].
    rewrite lookahead_length_operand.
    destruct (length_operand props) as [logic|]; [now split|].
    specialize (Hu sc). unfold meets in Hu |- *.
    destruct (rewrite (JObj props) sc) as [[r' a]|e]; cbn [bind].
    + destruct Hu as [-> Hu]. inversion Hu; subst. now split.
    + exact Hu.
Qed.

Lemma rewrite_props_meets (props : list (string * json)) :
  Forall (fun kv =>
            (forall sc, meets (rewrite (snd kv) sc) (accepted (snd kv))
                          (translated (snd kv)) sc (collected (snd kv)))
            /\ forall us, snd kv = JArr us ->
                 Forall (fun x => forall sc,
                           meets (rewrite x sc) (accepted x) (translated x)
                             sc (collected x)) us) props ->
  forall r sc,
    meets (rewrite_props props (r, sc)) (accepted_props props)
      (translated_props props r) sc (collected_props props).
Proof.
  induction 1 as [|[k u] props [Hu Hus] _ IH]; intros r sc.
  - simpl. split; [reflexivity | now rewrite app_nil_r].
  - rewrite rewrite_props_cons.
    apply (meets_bind_state
             (rewrite_body rewrite k u (r, sc))
             (entry_accepted accepted k u) (accepted_props props)
             (entry_mapping translated k u r) _ sc
             (entry_predicates collected k u) (collected_props props)).
    + now apply rewrite_body_meets.
    + apply IH.
Qed.

Lemma rewrite_elems_meets (us : list json) :
  Forall (fun u =>
            (forall sc, meets (rewrite u sc) (accepted u) (translated u) sc
                          (collected u))
            /\ forall us', u = JArr us' ->
                 Forall (fun x => forall sc,
                           meets (rewrite x sc) (accepted x) (translated x)
                             sc (collected x)) us') us ->
  forall i r sc,
    meets (rewrite_elems i us (r, sc)) (accepted_elems i us)
      (translated_elems i us r) sc (collected_elems i us).
Proof.
  induction 1 as [|u us [Hu Hus] _ IH]; intros i r sc.
  - simpl. split; [reflexivity | now rewrite app_nil_r].
  - change (rewrite_elems i (u :: us) (r, sc))
      with (st <- rewrite_body rewrite (string_of_nat i) u (r, sc) ;;
            rewrite_elems (S i) us st).
    apply (meets_bind_state
             (rewrite_body rewrite (string_of_nat i) u (r, sc))
             (entry_accepted accepted (string_of_nat i) u)
             (accepted_elems (S i) us)
             (entry_mapping translated (string_of_nat i) u r) _ sc
             (entry_predicates collected (string_of_nat i) u)
             (collected_elems (S i) us)).
    + now apply rewrite_body_meets.
    + apply IH.
Qed.

(** [rewrite] meets the contract on every value: it returns exactly on
    the accepted filters, and then the translated mapping, with the
    collected predicates after those it was given. *)
Lemma rewrite_meets (v : json) :
  forall sc, meets (rewrite v sc) (accepted v) (translated v) sc (collected v).
Proof.
  induction v as [| |b|n|s|elems IH|props IH] using json_induction_elems;
    intros sc;
    try reflexivity;
    try (split; [reflexivity | simpl; now rewrite app_nil_r]).
  - rewrite rewrite_string.
    split; [reflexivity | simpl; now rewrite app_nil_r].
  - rewrite rewrite_unfold. apply (rewrite_elems_meets elems IH 0%nat [] sc).
  - rewrite rewrite_unfold. apply (rewrite_props_meets props IH [] sc).
Qed.

(** C7, as amended: on every filter the contract accepts, that is every
    filter in which the rewrite meets neither the length keyword among
    the keys it enumerates nor [null] or [undefined] where it enumerates
    keys, [toSequelize] returns without throwing, and the mapping is the
    translated filter: at every depth [id] and [labels] are kept, a
    connector keyword becomes its symbol and every other key [k], [$eqq]
    included, becomes [data.<k>]; on every other filter it throws. *)
Theorem C7_key_rewrite_every_filter (v : json) :
  (forall k, ~ In k switch_keywords ->
             getSequelizeOperator k = Ok (KStr (data_key k))
             /\ spec_key k = KStr (data_key k))
  /\ (accepted v = true ->
      (forall sc, rewrite v sc = Ok (translated v, (sc ++ collected v)%list))
      /\ exists d,
           toSequelize v = Ok d
           /\ (collected v = [] -> d = descriptor (translated v))
           /\ (collected v <> [] -> translated v = [] ->
               d = where_ (SArr (collected v)))
           /\ (collected v <> [] -> keys (translated v) <> [] ->
               d = where_ (SArr (collected v ++ [SObj (translated v)]))))
  /\ (accepted v = false -> exists e, toSequelize v = Err e).
Proof.
  split; [|split].
  - intros k Hk. split;
      [now apply getSequelizeOperator_other | now apply spec_key_other].
  - intros Hacc.
    assert (forall sc,
              rewrite v sc = Ok (translated v, (sc ++ collected v)%list)) as Hrw.
    { intros sc. pose proof (rewrite_meets v sc) as H. unfold meets in H.
      destruct (rewrite v sc) as [st|e]; [|congruence].
      now destruct H as [_ ->]. }
    split; [exact Hrw|].
    pose proof (toSequelize_assembly v (Hrw [])) as E. cbn [app] in E.
    eexists. split; [exact E|].
    repeat split.
    + now intros ->.
    + intros HS HP. rewrite HP.
      destruct (collected v); [congruence | reflexivity].
    + intros HS HP.
      destruct (collected v); [congruence|].
      destruct (keys (translated v)); [congruence | reflexivity].
  - intros Hacc. pose proof (rewrite_meets v []) as H. unfold meets in H.
    unfold toSequelize.
    destruct (rewrite v []) as [st|e]; [destruct H; congruence|].
    now exists e.
Qed.

Lemma C7_key_rewrite_every_filter_witness :
  let v := JObj [("id", JNum 3); ("labels", JStr "c,v");
                 ("a", JObj [("$gt", JNum 1)]); ("$eqq", JNum 2);
                 ("$or", JArr [JObj [("$eqq", JNum 1)]])] in
  let P := [(KStr "id", SVal (JNum 3));
            (KStr "labels", SVal (JStr "c,v"));
            (KStr "data.a", SObj [(KSym Op_gt, SVal (JNum 1))]);
            (KStr "data.$eqq", SVal (JNum 2));
            (KSym Op_or, SArr [SObj [(KStr "data.$eqq", SVal (JNum 1))]])] in
  accepted v = true
  /\ rewrite v [] = Ok (P, [])
  /\ toSequelize v = Ok (where_ (SObj P)).
Proof.
  intros v P.
  assert (accepted v = true) as Hacc by reflexivity.
  destruct (proj1 (proj2 (C7_key_rewrite_every_filter v)) Hacc)
    as [Hrw [d [Hd [Hdesc _]]]].
  refine (conj Hacc (conj (Hrw []) _)).
  rewrite Hd, (Hdesc eq_refl). reflexivity.
Defined.

(** C7, as stated, fails: neither [b] nor [$size] is a connector keyword,
    and [toSequelize] throws on [{b: [null]}] and on [{a: 1, $size: 3}]
    instead of rewriting the keys. *)
Lemma C7_throwing_filters_counterexample :
  ~ In "b" (map fst connector_symbols)
  /\ toSequelize (JObj [("b", JArr [JNull])]) = Err TypeError
  /\ ~ In "$size" (map fst connector_symbols)
  /\ toSequelize (JObj [("a", JNum 1); ("$size", JNum 3)])
     = Err (Error "Should have been handled separately already.").
Proof.
  repeat split; try reflexivity; simpl; intuition discriminate.
Qed.

End TranslatorContract.
